(** * The Epic Games store client ([epic.py]): session, catalog query, claim

    A shallow embedding of [EpicGamesClient] and the properties of its
    authentication, catalog and claim operations.

    Conventions of the model.
    - JSON / Python values are the inductive type [pyval]; numbers are
      mathematical integers (the rounding of Python floats is outside the
      model), and a dict is an association list whose keys are distinct.
    - The client object is the record [client]; besides the attributes of
      [EpicGamesClient] it carries the two data files, the log of network
      requests performed ([sent], newest first), the log of file writes
      attempted ([writes]) and the number of [time.time()] readings.
    - The outside world (servers, wall clock, disk) is a [world]: every
      theorem quantifies over it.
    - A method is a function [client -> res A * client]; [Exn] stands for a
      raised Python exception.  Attribute assignments made before an
      exception is raised stay in the client, as in Python.
    - Calls to [logger] have no effect on the client and are left out, and
      so are the cookies [requests.Session] keeps.
    - In a [client], [expires_at] is a number and [claimed_games] a list, as
      they are after [__init__] without data files, after every successful
      login or refresh, and in every file the client itself has written.  A
      session file edited by hand may bind [expires_at] to another JSON
      value: the source then builds an object whose expiry test
      ([self.expires_at - 300], outside any [try]) raises [TypeError].  Such
      objects are not values of [client]; [__init__] answers [None] for
      them, and every statement about a [client] supposes a numeric
      [expires_at] and a ledger that is a list. *)

From Stdlib Require Import String Ascii ZArith List Bool Lia.
Import ListNotations.
Local Open Scope string_scope.
Local Open Scope Z_scope.

(** ** Python values *)

#[local] Set Warnings "-register-all".

Inductive pyval : Type :=
| PNone
| PBool (b : bool)
| PInt (z : Z)
| PStr (s : string)
| PList (l : list pyval)
| PDict (d : list (string * pyval)).

(** [bool(v)]: the truth value Python gives to [v]. *)
Definition truthy (v : pyval) : bool :=
  match v with
  | PNone => false
  | PBool b => b
  | PInt z => negb (z =? 0)
  | PStr s => negb (s =? "")%string
  | PList l => match l with [] => false | _ => true end
  | PDict d => match d with [] => false | _ => true end
  end.

(** Lookup in a dict body. *)
Fixpoint dict_get (k : string) (d : list (string * pyval)) : option pyval :=
  match d with
  | [] => None
  | (k', v) :: d' => if (k =? k')%string then Some v else dict_get k d'
  end.

(** [a == b] on JSON values: [bool] is a subtype of [int], lists compare
    element-wise, dicts as finite maps, values of unrelated types differ. *)
Fixpoint py_eq (a b : pyval) {struct a} : bool :=
  match a, b with
  | PNone, PNone => true
  | PBool x, PBool y => Bool.eqb x y
  | PBool x, PInt y => Z.b2z x =? y
  | PInt x, PBool y => x =? Z.b2z y
  | PInt x, PInt y => x =? y
  | PStr s, PStr t => (s =? t)%string
  | PList l1, PList l2 =>
      (fix go (l1 l2 : list pyval) {struct l1} : bool :=
         match l1, l2 with
         | [], [] => true
         | x :: l1', y :: l2' => py_eq x y && go l1' l2'
         | _, _ => false
         end) l1 l2
  | PDict d1, PDict d2 =>
      (length d1 =? length d2)%nat &&
      (fix go (d : list (string * pyval)) : bool :=
         match d with
         | [] => true
         | (k, v) :: d' =>
             match dict_get k d2 with
             | Some v' => py_eq v v'
             | None => false
             end && go d'
         end) d1
  | _, _ => false
  end.

(** [x in l] for a Python list [l]: some element [e] has [e == x]. *)
Definition py_in (x : pyval) (l : list pyval) : bool :=
  existsb (fun e => py_eq e x) l.

(** [l.count(x)]: the number of elements [e] of [l] with [e == x]. *)
Definition copies (x : pyval) (l : list pyval) : nat :=
  length (filter (fun e => py_eq e x) l).

(** ** Results and the method monad *)

Inductive res (A : Type) : Type :=
| Val (a : A)
| Exn.
Arguments Val {A} a.
Arguments Exn {A}.

(** [v.get(key, default)]: [AttributeError] unless [v] is a dict. *)
Definition py_get (v : pyval) (key : string) (default : pyval) : res pyval :=
  match v with
  | PDict d => match dict_get key d with Some x => Val x | None => Val default end
  | _ => Exn
  end.

(** [for item in v]: the sequence Python iterates over; [TypeError] when
    [v] is not iterable.  A dict yields its keys, a string its characters. *)
Definition py_iter (v : pyval) : res (list pyval) :=
  match v with
  | PList l => Val l
  | PDict d => Val (map (fun kv => PStr (fst kv)) d)
  | PStr s => Val (map (fun c => PStr (String c EmptyString)) (list_ascii_of_string s))
  | _ => Exn
  end.

(** The integers Python converts to a float are those below [float_limit]
    in absolute value. *)
Definition float_limit : Z := 2 ^ 1024 - 2 ^ 970.

#[global] Arguments float_limit : simpl never.

(** [now + v] for a float [now] such as [time.time()]: [TypeError] unless
    [v] is a number, [OverflowError] when [v] is an integer too large for a
    float. *)
Definition py_add_num (now : Z) (v : pyval) : res Z :=
  match v with
  | PInt z => if Z.abs z <? float_limit then Val (now + z) else Exn
  | PBool b => Val (now + Z.b2z b)
  | _ => Exn
  end.

(** ** Strings: [str.split] with a non-empty separator *)

Fixpoint starts_with (p s : string) : bool :=
  match p, s with
  | EmptyString, _ => true
  | String a p', String b s' => Ascii.eqb a b && starts_with p' s'
  | String _ _, EmptyString => false
  end.

Definition rev_string (cs : list ascii) : string := string_of_list_ascii (rev cs).

(** [split_from sep skip cur s]: the pieces of [s], where [cur] holds the
    current piece reversed and [skip] characters of a matched separator are
    still to be dropped.  Separators are matched leftmost, not overlapping. *)
Fixpoint split_from (sep : string) (skip : nat) (cur : list ascii) (s : string)
  : list string :=
  match s with
  | EmptyString => [rev_string cur]
  | String c s' =>
      match skip with
      | S k => split_from sep k cur s'
      | O =>
          if starts_with sep s
          then rev_string cur :: split_from sep (Nat.pred (String.length sep)) [] s'
          else split_from sep O (c :: cur) s'
      end
  end.

Definition py_split (sep s : string) : list string := split_from sep O [] s.

(** [l[i]]: [IndexError] when out of range. *)
Definition py_index {A : Type} (l : list A) (i : nat) : res A :=
  match nth_error l i with Some x => Val x | None => Exn end.

(** [v.split(sep)]: [AttributeError] unless [v] is a string. *)
Definition py_str_split (v : pyval) (sep : string) : res (list string) :=
  match v with
  | PStr s => Val (py_split sep s)
  | _ => Exn
  end.

(** ** The outside world *)

(** What [requests] sends.  [auth] is the token held by the session's
    [Authorization: Bearer ...] header, if the header is set. *)
Inductive request : Type :=
| Post (url : string) (json : pyval) (auth : option pyval)
| Get (url : string) (params : list (string * string)) (auth : option pyval).

(** An HTTP response: its status code and what [response.json()] gives
    ([None] when the body is not JSON and [json()] raises). *)
Record response : Type := {
  status_code : Z;
  json_body : option pyval
}.

(** A request either raises (transport failure) or returns a response. *)
Inductive http_outcome : Type :=
| Raises
| Returns (r : response).

Inductive path : Type := SessionFile | ClaimedGamesFile.

(** [open(path, 'w')] followed by [json.dump]: it either completes, or
    raises and leaves the file with some content ([None]: no readable JSON). *)
Inductive write_outcome : Type :=
| Written
| WriteFails (left : option pyval).

Record world : Type := {
  (** the answer to a request, given the requests made before it *)
  http : list request -> request -> http_outcome;
  (** the value of the n-th reading of [time.time()] *)
  clock : nat -> Z;
  (** the fate of the n-th file write *)
  disk : nat -> write_outcome
}.

(** ** The client object *)

Record client : Type := {
  access_token : pyval;
  refresh_token : pyval;
  account_id : pyval;
  expires_at : Z;
  authorization : option pyval;
  claimed_games : list pyval;
  session_file : option pyval;
  claimed_games_file : option pyval;
  sent : list request;
  writes : list (path * pyval);
  ticks : nat
}.

Definition set_access_token (v : pyval) (s : client) : client :=
  {| access_token := v; refresh_token := refresh_token s;
     account_id := account_id s; expires_at := expires_at s;
     authorization := authorization s; claimed_games := claimed_games s;
     session_file := session_file s; claimed_games_file := claimed_games_file s;
     sent := sent s; writes := writes s; ticks := ticks s |}.

Definition set_refresh_token (v : pyval) (s : client) : client :=
  {| access_token := access_token s; refresh_token := v;
     account_id := account_id s; expires_at := expires_at s;
     authorization := authorization s; claimed_games := claimed_games s;
     session_file := session_file s; claimed_games_file := claimed_games_file s;
     sent := sent s; writes := writes s; ticks := ticks s |}.

Definition set_account_id (v : pyval) (s : client) : client :=
  {| access_token := access_token s; refresh_token := refresh_token s;
     account_id := v; expires_at := expires_at s;
     authorization := authorization s; claimed_games := claimed_games s;
     session_file := session_file s; claimed_games_file := claimed_games_file s;
     sent := sent s; writes := writes s; ticks := ticks s |}.

Definition set_expires_at (t : Z) (s : client) : client :=
  {| access_token := access_token s; refresh_token := refresh_token s;
     account_id := account_id s; expires_at := t;
     authorization := authorization s; claimed_games := claimed_games s;
     session_file := session_file s; claimed_games_file := claimed_games_file s;
     sent := sent s; writes := writes s; ticks := ticks s |}.

Definition set_authorization (v : pyval) (s : client) : client :=
  {| access_token := access_token s; refresh_token := refresh_token s;
     account_id := account_id s; expires_at := expires_at s;
     authorization := Some v; claimed_games := claimed_games s;
     session_file := session_file s; claimed_games_file := claimed_games_file s;
     sent := sent s; writes := writes s; ticks := ticks s |}.

Definition set_claimed_games (l : list pyval) (s : client) : client :=
  {| access_token := access_token s; refresh_token := refresh_token s;
     account_id := account_id s; expires_at := expires_at s;
     authorization := authorization s; claimed_games := l;
     session_file := session_file s; claimed_games_file := claimed_games_file s;
     sent := sent s; writes := writes s; ticks := ticks s |}.

Definition set_file (p : path) (c : option pyval) (s : client) : client :=
  {| access_token := access_token s; refresh_token := refresh_token s;
     account_id := account_id s; expires_at := expires_at s;
     authorization := authorization s; claimed_games := claimed_games s;
     session_file := match p with SessionFile => c | _ => session_file s end;
     claimed_games_file :=
       match p with ClaimedGamesFile => c | _ => claimed_games_file s end;
     sent := sent s; writes := writes s; ticks := ticks s |}.

Definition log_request (r : request) (s : client) : client :=
  {| access_token := access_token s; refresh_token := refresh_token s;
     account_id := account_id s; expires_at := expires_at s;
     authorization := authorization s; claimed_games := claimed_games s;
     session_file := session_file s; claimed_games_file := claimed_games_file s;
     sent := r :: sent s; writes := writes s; ticks := ticks s |}.

Definition log_write (p : path) (v : pyval) (s : client) : client :=
  {| access_token := access_token s; refresh_token := refresh_token s;
     account_id := account_id s; expires_at := expires_at s;
     authorization := authorization s; claimed_games := claimed_games s;
     session_file := session_file s; claimed_games_file := claimed_games_file s;
     sent := sent s; writes := (p, v) :: writes s; ticks := ticks s |}.

Definition tick (s : client) : client :=
  {| access_token := access_token s; refresh_token := refresh_token s;
     account_id := account_id s; expires_at := expires_at s;
     authorization := authorization s; claimed_games := claimed_games s;
     session_file := session_file s; claimed_games_file := claimed_games_file s;
     sent := sent s; writes := writes s; ticks := S (ticks s) |}.

(** The Credential of the specification: the four session attributes. *)
Definition credential (s : client) : pyval * pyval * pyval * Z :=
  (access_token s, refresh_token s, account_id s, expires_at s).

(** ** Methods as state transformers that may raise *)

Definition M (A : Type) : Type := client -> res A * client.

Definition ret {A : Type} (a : A) : M A := fun s => (Val a, s).

Definition raise {A : Type} : M A := fun s => (Exn, s).

Definition bind {A B : Type} (m : M A) (k : A -> M B) : M B :=
  fun s => match m s with
           | (Val a, s') => k a s'
           | (Exn, s') => (Exn, s')
           end.

(** [try: m  except Exception: h]. *)
Definition try_except {A : Type} (m : M A) (h : M A) : M A :=
  fun s => match m s with
           | (Val a, s') => (Val a, s')
           | (Exn, s') => h s'
           end.

(** A pure computation that may raise, run as a method step. *)
Definition lift {A : Type} (r : res A) : M A := fun s => (r, s).

(** An attribute assignment. *)
Definition assign (f : client -> client) : M unit := fun s => (Val tt, f s).

Declare Scope method_scope.
Delimit Scope method_scope with method.
Notation "x <- m ;; k" := (bind m (fun x => k))
  (at level 61, m at next level, right associativity) : method_scope.
Notation "m ;;; k" := (bind m (fun _ => k))
  (at level 61, right associativity) : method_scope.
Local Open Scope method_scope.

(** Reading an attribute. *)
Definition read {A : Type} (f : client -> A) : M A := fun s => (Val (f s), s).

(** Sequencing of pure steps that may raise. *)
Definition and_then {A B : Type} (r : res A) (k : A -> res B) : res B :=
  match r with
  | Val a => k a
  | Exn => Exn
  end.

Notation "x <~ r ;; k" := (and_then r (fun x => k))
  (at level 61, r at next level, right associativity) : method_scope.

(** ** Class constants *)

Definition LOGIN_URL : string := "https://www.epicgames.com/id/api/login".
Definition REDIRECT_URL : string := "https://www.epicgames.com/id/api/redirect".
Definition OAUTH_URL : string := "https://www.epicgames.com/id/api/oauth".
Definition STORE_URL : string := "https://store-content.ak.epicgames.com".
Definition GRAPHQL_URL : string := "https://graphql.epicgames.com/graphql".
Definition FREE_GAMES_URL : string :=
  STORE_URL ++ "/api/content/assets/v2/freegames".
Definition CLIENT_ID : string := "875a3b57d3a640a6b7f9b4e883463ab4".

#[global] Arguments LOGIN_URL : simpl never.
#[global] Arguments REDIRECT_URL : simpl never.
#[global] Arguments OAUTH_URL : simpl never.
#[global] Arguments FREE_GAMES_URL : simpl never.
#[global] Arguments GRAPHQL_URL : simpl never.
#[global] Arguments CLIENT_ID : simpl never.

(** The text of the purchase-order mutation sent by [claim_game]. *)
Definition purchase_query : string := "
            mutation purchaseOrderMutation($orderPurchaseParams: OrderPurchaseParams!) {
                purchaseOrder(orderPurchaseParams: $orderPurchaseParams) {
                    orderResponse {
                        orderResponseCode
                        orderNumber
                        orderComplete
                        orderError
                    }
                }
            }
            ".

#[global] Arguments purchase_query : simpl never.

(** ** Offers *)

(** An f-string with one interpolated value, [f'prefix{arg}'], kept
    unevaluated: [str()] of an arbitrary JSON value is not modelled. *)
Inductive fstring : Type := FString (prefix : string) (arg : pyval).

(** The dictionary built by [get_free_games] and read by [claim_game]; a
    missing key and a key bound to [None] are the same to [dict.get]. *)
Record game : Type := {
  game_id : pyval;
  game_title : pyval;
  game_namespace : pyval;
  game_description : pyval;
  game_url : fstring
}.

(** ** The methods of [EpicGamesClient] *)

Section Methods.

Variable w : world.

(** [time.time()]. *)
Definition time_time : M Z :=
  fun s => (Val (clock w (ticks s)), tick s).

(** [self.session.post(url, json=json)]. *)
Definition session_post (url : string) (json : pyval) : M response :=
  fun s =>
    let r := Post url json (authorization s) in
    match http w (sent s) r with
    | Raises => (Exn, log_request r s)
    | Returns resp => (Val resp, log_request r s)
    end.

(** [self.session.get(url, params=params)]. *)
Definition session_get (url : string) (params : list (string * string))
  : M response :=
  fun s =>
    let r := Get url params (authorization s) in
    match http w (sent s) r with
    | Raises => (Exn, log_request r s)
    | Returns resp => (Val resp, log_request r s)
    end.

(** [response.json()]. *)
Definition response_json (r : response) : M pyval :=
  lift (match json_body r with Some v => Val v | None => Exn end).

(** [with open(p, 'w') as f: json.dump(v, f)]. *)
Definition write_json (p : path) (v : pyval) : M unit :=
  fun s =>
    let s' := log_write p v s in
    match disk w (length (writes s)) with
    | Written => (Val tt, set_file p (Some v) s')
    | WriteFails c => (Exn, set_file p c s')
    end.

Definition session_data (s : client) : pyval :=
  PDict [("access_token", access_token s);
         ("refresh_token", refresh_token s);
         ("account_id", account_id s);
         ("expires_at", PInt (expires_at s))].

Definition _save_session : M unit :=
  try_except
    (data <- read session_data ;;
     write_json SessionFile data)
    (ret tt).

Definition _save_claimed_games : M unit :=
  try_except
    (l <- read claimed_games ;;
     write_json ClaimedGamesFile (PList l))
    (ret tt).

(** The expiry test, on the numeric [expires_at] of a [client]. *)
Definition _is_token_expired : M bool :=
  now <- time_time ;;
  e <- read expires_at ;;
  ret (now >=? e - 300).

(** The attributes are assigned one after the other inside the [try]
    block; the sum for [expires_at] is the last step that may raise. *)
Definition _refresh_access_token : M bool :=
  rt <- read refresh_token ;;
  if negb (truthy rt) then ret false
  else
    try_except
      (response <-
         session_post (OAUTH_URL ++ "/token")
           (PDict [("grant_type", PStr "refresh_token");
                   ("refresh_token", rt);
                   ("client_id", PStr CLIENT_ID)]) ;;
       if status_code response =? 200 then
         token_data <- response_json response ;;
         a <- lift (py_get token_data "access_token" PNone) ;;
         assign (set_access_token a) ;;;
         r <- lift (py_get token_data "refresh_token" PNone) ;;
         assign (set_refresh_token r) ;;;
         now <- time_time ;;
         e <- lift (py_get token_data "expires_in" (PInt 28800)) ;;
         t <- lift (py_add_num now e) ;;
         assign (set_expires_at t) ;;;
         a' <- read access_token ;;
         assign (set_authorization a') ;;;
         _save_session ;;;
         ret true
       else ret false)
      (ret false).

(** [login] returns the pair [(success, 2fa_method)]. *)
Definition login (username password : string) : M (bool * pyval) :=
  try_except
    (response <-
       session_post LOGIN_URL
         (PDict [("email", PStr username);
                 ("password", PStr password);
                 ("rememberMe", PBool true);
                 ("captcha", PNone)]) ;;
     if status_code response =? 200 then
       login_response <- response_json response ;;
       tfa <- lift (py_get login_response "twoFactorRequired" (PBool false)) ;;
       if truthy tfa then
         method <- lift (py_get login_response "method" PNone) ;;
         ret (false, method)
       else
         redirect_response <- session_get REDIRECT_URL [] ;;
         if status_code redirect_response =? 200 then
           redirect_data <- response_json redirect_response ;;
           code <- lift (u <~ py_get redirect_data "redirectUrl" (PStr "") ;;
                         parts <~ py_str_split u "code=" ;;
                         rest <~ py_index parts 1 ;;
                         py_index (py_split "&" rest) 0) ;;
           token_response <-
             session_post (OAUTH_URL ++ "/token")
               (PDict [("grant_type", PStr "authorization_code");
                       ("code", PStr code);
                       ("client_id", PStr CLIENT_ID)]) ;;
           if status_code token_response =? 200 then
             token_info <- response_json token_response ;;
             a <- lift (py_get token_info "access_token" PNone) ;;
             assign (set_access_token a) ;;;
             r <- lift (py_get token_info "refresh_token" PNone) ;;
             assign (set_refresh_token r) ;;;
             i <- lift (py_get token_info "account_id" PNone) ;;
             assign (set_account_id i) ;;;
             now <- time_time ;;
             e <- lift (py_get token_info "expires_in" (PInt 28800)) ;;
             t <- lift (py_add_num now e) ;;
             assign (set_expires_at t) ;;;
             a' <- read access_token ;;
             assign (set_authorization a') ;;;
             _save_session ;;;
             ret (true, PNone)
           else ret (false, PNone)
         else ret (false, PNone)
     else ret (false, PNone))
    (ret (false, PNone)).

Definition ensure_authenticated : M bool :=
  a <- read access_token ;;
  if negb (truthy a) then ret false
  else
    expired <- _is_token_expired ;;
    if expired then _refresh_access_token else ret true.

(** [item.get('price', {}).get('totalPrice', {}).get('discountPrice', 0)]. *)
Definition discount_price (item : pyval) : res pyval :=
  price <~ py_get item "price" (PDict []) ;;
  total <~ py_get price "totalPrice" (PDict []) ;;
  py_get total "discountPrice" (PInt 0).

(** One turn of the loop over the catalog entries: [free_games] after the
    turn ([continue] leaves it as it is). *)
Definition loop_body (claimed : list pyval) (item : pyval)
  (free_games : list game) : res (list game) :=
  p <~ discount_price item ;;
  if py_eq p (PInt 0) then
    i <~ py_get item "id" PNone ;;
    title <~ py_get item "title" (PStr "Unknown Game") ;;
    if py_in i claimed then Val free_games
    else
      n <~ py_get item "namespace" PNone ;;
      d <~ py_get item "description" PNone ;;
      u <~ py_get item "urlSlug" PNone ;;
      Val (free_games ++
           [{| game_id := i; game_title := title; game_namespace := n;
               game_description := d;
               game_url :=
                 FString "https://www.epicgames.com/store/en-US/p/" u |}])%list
  else Val free_games.

Fixpoint for_items (claimed : list pyval) (items : list pyval)
  (free_games : list game) : res (list game) :=
  match items with
  | [] => Val free_games
  | item :: rest =>
      fg <~ loop_body claimed item free_games ;;
      for_items claimed rest fg
  end.

(** [data.get('data', {}).get('Catalog', {}).get('searchStore', {})
        .get('elements', [])]. *)
Definition catalog_elements (data : pyval) : res pyval :=
  d <~ py_get data "data" (PDict []) ;;
  c <~ py_get d "Catalog" (PDict []) ;;
  s <~ py_get c "searchStore" (PDict []) ;;
  py_get s "elements" (PList []).

Definition catalog_params : list (string * string) :=
  [("locale", "en-US"); ("country", "US"); ("allowCountries", "US")].

Definition get_free_games : M (list game) :=
  ok <- ensure_authenticated ;;
  if negb ok then ret []
  else
    try_except
      (response <- session_get FREE_GAMES_URL catalog_params ;;
       if status_code response =? 200 then
         data <- response_json response ;;
         elements <- lift (catalog_elements data) ;;
         items <- lift (py_iter elements) ;;
         claimed <- read claimed_games ;;
         lift (for_items claimed items [])
       else ret [])
      (ret []).

(** The JSON body of the purchase-order request. *)
Definition purchase_payload (game_id namespace : pyval) : pyval :=
  PDict [("query", PStr purchase_query);
         ("variables",
          PDict [("orderPurchaseParams",
                  PDict [("productId", game_id);
                         ("quantity", PInt 1);
                         ("namespace", namespace);
                         ("offerId", game_id);
                         ("currency", PStr "USD");
                         ("lineOffers",
                          PList [PDict [("offerId", game_id);
                                        ("quantity", PInt 1)]])])])].

(** [result.get('data', {}).get('purchaseOrder', {}).get('orderResponse', {})]. *)
Definition order_response (result : pyval) : res pyval :=
  d <~ py_get result "data" (PDict []) ;;
  p <~ py_get d "purchaseOrder" (PDict []) ;;
  py_get p "orderResponse" (PDict []).

Definition claim_game (g : game) : M bool :=
  ok <- ensure_authenticated ;;
  if negb ok then ret false
  else
    let i := game_id g in
    let namespace := game_namespace g in
    let title := game_title g in
    if negb (truthy i && truthy namespace && truthy title) then ret false
    else
      try_except
        (response <- session_post GRAPHQL_URL (purchase_payload i namespace) ;;
         if status_code response =? 200 then
           result <- response_json response ;;
           purchase_data <- lift (order_response result) ;;
           complete <- lift (py_get purchase_data "orderComplete" (PBool false)) ;;
           if truthy complete then
             l <- read claimed_games ;;
             assign (set_claimed_games (l ++ [i])%list) ;;;
             _save_claimed_games ;;;
             ret true
           else
             error <- lift (py_get purchase_data "orderError" PNone) ;;
             ret false
         else ret false)
        (ret false).

(** The client after a confirmed claim of [i]: the id is appended and the
    ledger saved. *)
Definition commit_claim (i : pyval) (s : client) : client :=
  snd (_save_claimed_games (set_claimed_games (claimed_games s ++ [i]) s)).

End Methods.

(** ** Requests, outcomes and the vocabulary of the specification *)

(** The request made by [_refresh_access_token]. *)
Definition refresh_request (s : client) : request :=
  Post (OAUTH_URL ++ "/token")
       (PDict [("grant_type", PStr "refresh_token");
               ("refresh_token", refresh_token s);
               ("client_id", PStr CLIENT_ID)])
       (authorization s).

(** The purchase-order request [claim_game] makes for [g]. *)
Definition purchase_request (g : game) (s : client) : request :=
  Post GRAPHQL_URL (purchase_payload (game_id g) (game_namespace g))
       (authorization s).

(** [all([game_id, namespace, title])]. *)
Definition well_formed (g : game) : bool :=
  truthy (game_id g) && truthy (game_namespace g) && truthy (game_title g).

(** The transaction marks the order complete: a response with status 200
    whose JSON body carries a true [orderComplete] under
    [data.purchaseOrder.orderResponse]. *)
Definition order_complete (o : http_outcome) : bool :=
  match o with
  | Raises => false
  | Returns r =>
      (status_code r =? 200) &&
      match json_body r with
      | None => false
      | Some result =>
          match (p <~ order_response result ;;
                 py_get p "orderComplete" (PBool false)) with
          | Val v => truthy v
          | Exn => false
          end
      end
  end.

Definition request_url (r : request) : string :=
  match r with
  | Post u _ _ => u
  | Get u _ _ => u
  end.

Definition is_catalog_request (r : request) : bool :=
  (request_url r =? FREE_GAMES_URL)%string.

(** The catalog request [get_free_games] makes. *)
Definition catalog_request (s : client) : request :=
  Get FREE_GAMES_URL catalog_params (authorization s).

(** The value bound to [key] in a catalog entry, [default] when missing. *)
Definition field (item : pyval) (key : string) (default : pyval) : pyval :=
  match py_get item key default with
  | Val v => v
  | Exn => default
  end.

Definition entry_id (item : pyval) : pyval := field item "id" PNone.

(** The Offer record of a catalog entry. *)
Definition entry_offer (item : pyval) : game :=
  {| game_id := entry_id item;
     game_title := field item "title" (PStr "Unknown Game");
     game_namespace := field item "namespace" PNone;
     game_description := field item "description" PNone;
     game_url := FString "https://www.epicgames.com/store/en-US/p/"
                         (field item "urlSlug" PNone) |}.

(** The discount price of the entry is zero. *)
Definition is_free (item : pyval) : bool :=
  match discount_price item with
  | Val p => py_eq p (PInt 0)
  | Exn => false
  end.

(** An entry whose price can be read: a JSON object whose [price], when
    present, is an object whose [totalPrice], when present, is an object. *)
Definition readable_entry (item : pyval) : bool :=
  match item with
  | PDict d =>
      match dict_get "price" d with
      | None => true
      | Some (PDict p) =>
          match dict_get "totalPrice" p with
          | None | Some (PDict _) => true
          | Some _ => false
          end
      | Some _ => false
      end
  | _ => false
  end.

(** An entry without a [price], or without [totalPrice] or [discountPrice]
    below it. *)
Definition lacks_price (item : pyval) : bool :=
  match item with
  | PDict d =>
      match dict_get "price" d with
      | None => true
      | Some (PDict p) =>
          match dict_get "totalPrice" p with
          | None => true
          | Some (PDict t) =>
              match dict_get "discountPrice" t with
              | None => true
              | Some _ => false
              end
          | Some _ => false
          end
      | Some _ => false
      end
  | _ => false
  end.

(** What the specification asks of [getFreeOffers]: the free entries whose
    id is not in the ledger, as Offer records, in catalog order. *)
Definition free_offers (claimed : list pyval) (items : list pyval) : list game :=
  map entry_offer
      (filter (fun item => is_free item && negb (py_in (entry_id item) claimed))
              items).

(** The three results of the specification's [login]. *)
Inductive LoginResult : Type :=
| Success
| TwoFactorRequired (method : pyval)
| Failed.

(** How the pair [(success, 2fa_method)] is read by the callers of [login]
    ([check_and_claim_free_games] in [app.py]). *)
Definition login_result (r : bool * pyval) : LoginResult :=
  if fst r then Success
  else if truthy (snd r) then TwoFactorRequired (snd r)
  else Failed.

(** The first request of [login]. *)
Definition login_request (username password : string) (s : client) : request :=
  Post LOGIN_URL
       (PDict [("email", PStr username);
               ("password", PStr password);
               ("rememberMe", PBool true);
               ("captcha", PNone)])
       (authorization s).

(** ** Scenarios *)

(** The client of a first run: no data file, nothing loaded. *)
Definition first_run : client :=
  {| access_token := PNone; refresh_token := PNone; account_id := PNone;
     expires_at := 0; authorization := None; claimed_games := [];
     session_file := None; claimed_games_file := None;
     sent := []; writes := []; ticks := O |}.

(** A client that loaded a session expiring at [expiry] and the ledger
    [claimed]. *)
Definition logged_in (expiry : Z) (claimed : list pyval) : client :=
  {| access_token := PStr "access-1"; refresh_token := PStr "refresh-1";
     account_id := PStr "account-1"; expires_at := expiry;
     authorization := Some (PStr "access-1"); claimed_games := claimed;
     session_file :=
       Some (PDict [("access_token", PStr "access-1");
                    ("refresh_token", PStr "refresh-1");
                    ("account_id", PStr "account-1");
                    ("expires_at", PInt expiry)]);
     claimed_games_file := Some (PList claimed);
     sent := []; writes := []; ticks := O |}.

Definition ok (body : pyval) : http_outcome :=
  Returns {| status_code := 200; json_body := Some body |}.

(** A world whose servers answer by [answer] whatever came before, whose
    clock stands at 1000 and whose disk treats every write as [d]. *)
Definition world_of (answer : request -> http_outcome) (d : write_outcome)
  : world :=
  {| http := fun _ r => answer r; clock := fun _ => 1000; disk := fun _ => d |}.

(** A catalog entry with id [i] and discount price [price]. *)
Definition priced (i : string) (price : Z) : pyval :=
  PDict [("id", PStr i); ("title", PStr "T"); ("namespace", PStr "ns");
         ("price", PDict [("totalPrice", PDict [("discountPrice", PInt price)])])].

(** A catalog entry without a [price]. *)
Definition unpriced (i : string) : pyval :=
  PDict [("id", PStr i); ("title", PStr "T"); ("namespace", PStr "ns")].

Definition catalog (items : list pyval) : pyval :=
  PDict [("data",
          PDict [("Catalog",
                  PDict [("searchStore", PDict [("elements", PList items)])])])].

Definition order_done : pyval :=
  PDict [("data",
          PDict [("purchaseOrder",
                  PDict [("orderResponse",
                          PDict [("orderComplete", PBool true)])])])].

(** A store that lists [items] and completes every order. *)
Definition store (items : list pyval) (r : request) : http_outcome :=
  match r with
  | Get u _ _ => if (u =? FREE_GAMES_URL)%string then ok (catalog items) else Raises
  | Post u _ _ => if (u =? GRAPHQL_URL)%string then ok order_done else Raises
  end.

(** An identity provider answering the login request with [login_answer]
    and a token request with [token_answer]. *)
Definition identity (login_answer token_answer : pyval) (r : request)
  : http_outcome :=
  match r with
  | Post u _ _ =>
      if (u =? LOGIN_URL)%string then ok login_answer
      else if (u =? OAUTH_URL ++ "/token")%string then ok token_answer
      else Raises
  | Get u _ _ =>
      if (u =? REDIRECT_URL)%string
      then ok (PDict [("redirectUrl",
                       PStr "https://www.epicgames.com/id/login?code=abc123&state=x")])
      else Raises
  end.

Definition two_factor_answer : pyval :=
  PDict [("twoFactorRequired", PBool true); ("method", PStr "email")].

(** A token response whose [expires_in] is a JSON string. *)
Definition string_expiry_tokens : pyval :=
  PDict [("access_token", PStr "access-2"); ("refresh_token", PStr "refresh-2");
         ("account_id", PStr "account-1"); ("expires_in", PStr "28800")].

(** The catalog of the specification's scenario. *)
Definition abc_catalog : list pyval := [priced "a" 0; priced "b" 500; priced "c" 0].

(** The offer of the specification's claim scenario. *)
Definition game_c : game :=
  {| game_id := PStr "c"; game_title := PStr "T"; game_namespace := PStr "ns";
     game_description := PNone;
     game_url := FString "https://www.epicgames.com/store/en-US/p/" PNone |}.

(** An offer without a namespace. *)
Definition game_without_namespace : game :=
  {| game_id := PStr "c"; game_title := PStr "T"; game_namespace := PNone;
     game_description := PNone;
     game_url := FString "https://www.epicgames.com/store/en-US/p/" PNone |}.

(** ** The rest of the client: two-factor completion and start-up *)

Section MoreMethods.

Variable w : world.

(** [complete_2fa]: the body of the answer to the code is not read, only
    its status; the rest is the exchange of [login]. *)
Definition complete_2fa (code : string) : M bool :=
  try_except
    (response <-
       session_post w (LOGIN_URL ++ "/mfa")
         (PDict [("code", PStr code);
                 ("method", PStr "authenticator");
                 ("rememberDevice", PBool true)]) ;;
     if status_code response =? 200 then
       redirect_response <- session_get w REDIRECT_URL [] ;;
       if status_code redirect_response =? 200 then
         redirect_data <- response_json redirect_response ;;
         code <- lift (u <~ py_get redirect_data "redirectUrl" (PStr "") ;;
                       parts <~ py_str_split u "code=" ;;
                       rest <~ py_index parts 1 ;;
                       py_index (py_split "&" rest) 0) ;;
         token_response <-
           session_post w (OAUTH_URL ++ "/token")
             (PDict [("grant_type", PStr "authorization_code");
                     ("code", PStr code);
                     ("client_id", PStr CLIENT_ID)]) ;;
         if status_code token_response =? 200 then
           token_info <- response_json token_response ;;
           a <- lift (py_get token_info "access_token" PNone) ;;
           assign (set_access_token a) ;;;
           r <- lift (py_get token_info "refresh_token" PNone) ;;
           assign (set_refresh_token r) ;;;
           i <- lift (py_get token_info "account_id" PNone) ;;
           assign (set_account_id i) ;;;
           now <- time_time w ;;
           e <- lift (py_get token_info "expires_in" (PInt 28800)) ;;
           t <- lift (py_add_num now e) ;;
           assign (set_expires_at t) ;;;
           a' <- read access_token ;;
           assign (set_authorization a') ;;;
           _save_session w ;;;
           ret true
         else ret false
       else ret false
     else ret false)
    (ret false).

End MoreMethods.

(** The session attributes as [__init__] and [_load_session] leave them:
    whatever JSON value the session file binds to [expires_at] is stored as
    it is. *)
Record session_attrs : Type := {
  loaded_access_token : pyval;
  loaded_refresh_token : pyval;
  loaded_account_id : pyval;
  loaded_expires_at : pyval;
  loaded_authorization : option pyval
}.

(** The attributes [__init__] sets before it loads the session. *)
Definition initial_attrs : session_attrs :=
  {| loaded_access_token := PNone; loaded_refresh_token := PNone;
     loaded_account_id := PNone; loaded_expires_at := PInt 0;
     loaded_authorization := None |}.

(** [_load_session], given the content of the session file ([None]: the
    file is missing, or [json.load] raises).  The attributes are assigned in
    turn and an exception ends the method with those assigned so far. *)
Definition _load_session (file : option pyval) (a : session_attrs)
  : session_attrs :=
  match file with
  | None => a
  | Some session_data =>
      match py_get session_data "access_token" PNone with
      | Exn => a
      | Val t =>
          match py_get session_data "refresh_token" PNone with
          | Exn =>
              {| loaded_access_token := t;
                 loaded_refresh_token := loaded_refresh_token a;
                 loaded_account_id := loaded_account_id a;
                 loaded_expires_at := loaded_expires_at a;
                 loaded_authorization := loaded_authorization a |}
          | Val r =>
              match py_get session_data "account_id" PNone with
              | Exn =>
                  {| loaded_access_token := t; loaded_refresh_token := r;
                     loaded_account_id := loaded_account_id a;
                     loaded_expires_at := loaded_expires_at a;
                     loaded_authorization := loaded_authorization a |}
              | Val i =>
                  match py_get session_data "expires_at" (PInt 0) with
                  | Exn =>
                      {| loaded_access_token := t; loaded_refresh_token := r;
                         loaded_account_id := i;
                         loaded_expires_at := loaded_expires_at a;
                         loaded_authorization := loaded_authorization a |}
                  | Val e =>
                      {| loaded_access_token := t; loaded_refresh_token := r;
                         loaded_account_id := i; loaded_expires_at := e;
                         loaded_authorization :=
                           if truthy t then Some t
                           else loaded_authorization a |}
                  end
              end
          end
      end
  end.

(** [_load_claimed_games], given the content of the ledger file: the JSON
    value of the file, whatever it is, and [[]] when the file is missing or
    unreadable. *)
Definition _load_claimed_games (file : option pyval) : pyval :=
  match file with
  | Some v => v
  | None => PList []
  end.

(** [EpicGamesClient(data_dir)] over the two data files of [data_dir], with
    nothing sent, written or read from the clock yet.  [None]: the loaded
    values are outside the attribute types of [client] ([expires_at] is not
    an integer, or the ledger is not a list).  The source builds an object
    from such files too; with a true access token its expiry test then
    raises [TypeError], which [ensure_authenticated], [get_free_games] and
    [claim_game] let escape.  No statement below is about those objects. *)
Definition __init__ (session claimed : option pyval) : option client :=
  let a := _load_session session initial_attrs in
  match loaded_expires_at a, _load_claimed_games claimed with
  | PInt e, PList l =>
      Some {| access_token := loaded_access_token a;
              refresh_token := loaded_refresh_token a;
              account_id := loaded_account_id a;
              expires_at := e;
              authorization := loaded_authorization a;
              claimed_games := l;
              session_file := session;
              claimed_games_file := claimed;
              sent := []; writes := []; ticks := O |}
  | _, _ => None
  end.

(** The first request of [complete_2fa]. *)
Definition mfa_request (code : string) (s : client) : request :=
  Post (LOGIN_URL ++ "/mfa")
       (PDict [("code", PStr code);
               ("method", PStr "authenticator");
               ("rememberDevice", PBool true)])
       (authorization s).

(** The request for the redirect that carries the authorization code. *)
Definition redirect_request (s : client) : request :=
  Get REDIRECT_URL [] (authorization s).


(** [redirect_data.get('redirectUrl', '').split('code=')[1].split('&')[0]]. *)
Definition authorization_code (redirect_data : pyval) : res string :=
  u <~ py_get redirect_data "redirectUrl" (PStr "") ;;
  parts <~ py_str_split u "code=" ;;
  rest <~ py_index parts 1 ;;
  py_index (py_split "&" rest) 0.

(** What an authenticated [get_free_games] returns for the answer [o] of
    the catalog endpoint: the unclaimed free entries when the answer has
    status 200 and a list of readable entries, and nothing otherwise. *)
Definition catalog_offers (claimed : list pyval) (o : http_outcome) : list game :=
  match o with
  | Raises => []
  | Returns r =>
      if status_code r =? 200 then
        match json_body r with
        | None => []
        | Some data =>
            match catalog_elements data with
            | Val (PList items) =>
                if forallb readable_entry items
                then free_offers claimed items
                else []
            | _ => []
            end
        end
      else []
  end.



(** [sep in s]: some suffix of [s] starts with [sep]. *)
Fixpoint occurs (sep s : string) : bool :=
  starts_with sep s ||
  match s with
  | EmptyString => false
  | String _ s' => occurs sep s'
  end.

(** ** Callers of the client *)

(** The text [_claim_free_games_thread] hands to Telegram, by its content:
    the titles are kept as values, and the delivery, which does not touch
    the client, is left out. *)
Inductive report : Type :=
| NotAuthenticated
| NoNewGames
| ClaimResults (claimed failed : list pyval)
| ClaimError.

(** The notifiers [NotificationManager] has configured. *)
Record channels : Type := {
  telegram_notifier : bool;
  discord_notifier : bool
}.

(** [TelegramNotifier.send_game_claimed_notification] builds its text with
    [description[:100]]: a [TypeError] (or [KeyError]) unless the description
    is a string or a list.  Sending the text is wrapped in [try], and its
    result is not used by the caller. *)
Definition telegram_claimed_notification (g : game) : res unit :=
  match game_description g with
  | PStr _ | PList _ => Val tt
  | _ => Exn
  end.

(** [DiscordNotifier.send_game_claimed_notification] builds its embed with
    [description[:200] + "..." if len(description) > 200 else description]. *)
Definition discord_claimed_notification (g : game) : res unit :=
  match game_description g with
  | PStr _ => Val tt
  | PList l => if (200 <? length l)%nat then Exn else Val tt
  | PDict d => if (200 <? length d)%nat then Exn else Val tt
  | _ => Exn
  end.

(** [NotificationManager.send_game_claimed_notification]: Telegram first,
    then Discord, each when configured. *)
Definition send_game_claimed_notification (n : channels) (g : game) : res unit :=
  _ <~ (if telegram_notifier n then telegram_claimed_notification g else Val tt) ;;
  if discord_notifier n then discord_claimed_notification g else Val tt.

Section Callers.

Variable w : world.

(** The loop of [_claim_free_games_thread] over the offers, with the two
    lists of titles it fills. *)
Fixpoint claim_each (free_games : list game) (claimed failed : list pyval)
  : M (list pyval * list pyval) :=
  match free_games with
  | [] => ret (claimed, failed)
  | g :: rest =>
      ok <- claim_game w g ;;
      if ok then claim_each rest (claimed ++ [game_title g])%list failed
      else claim_each rest claimed (failed ++ [game_title g])%list
  end.

(** [TelegramBot._claim_free_games_thread], as far as the client and the
    content of the report go. *)
Definition _claim_free_games_thread : M report :=
  try_except
    (ok <- ensure_authenticated w ;;
     if negb ok then ret NotAuthenticated
     else
       free_games <- get_free_games w ;;
       match free_games with
       | [] => ret NoNewGames
       | _ :: _ =>
           lists <- claim_each free_games [] [] ;;
           ret (ClaimResults (fst lists) (snd lists))
       end)
    (ret ClaimError).

(** The loop of [check_and_claim_free_games]: a claimed offer is notified,
    which may raise; the error notification of a failed claim sends a fixed
    text inside [try] and does not. *)
Fixpoint claim_and_notify (n : channels) (free_games : list game) : M unit :=
  match free_games with
  | [] => ret tt
  | g :: rest =>
      ok <- claim_game w g ;;
      (if ok then lift (send_game_claimed_notification n g) else ret tt) ;;;
      claim_and_notify n rest
  end.

(** [EpicGamesFreebieClaimer.check_and_claim_free_games], as far as the
    client goes, run with the client of [epic.py].  There is no [try]: an
    exception ends the cycle.  After a login that did not succeed the cycle
    only notifies (inside [try]) and returns. *)
Definition check_and_claim_free_games (n : channels) (username password : string)
  : M unit :=
  ok <- ensure_authenticated w ;;
  proceed <- (if ok then ret true
              else r <- login w username password ;; ret (fst r)) ;;
  if negb proceed then ret tt
  else
    free_games <- get_free_games w ;;
    claim_and_notify n free_games.

(** The answers of [claim_game] to the offers in turn, each call running
    in the state the one before left. *)
Fixpoint claim_outcomes (free_games : list game) (s : client) : list bool :=
  match free_games with
  | [] => []
  | g :: rest =>
      let r := claim_game w g s in
      match fst r with
      | Val ok => ok
      | Exn => false
      end :: claim_outcomes rest (snd r)
  end.

End Callers.

(** The elements of [l] whose bit in [mask] is [b]. *)
Fixpoint pick {A : Type} (b : bool) (mask : list bool) (l : list A) : list A :=
  match mask, l with
  | m :: mask', x :: l' =>
      if Bool.eqb m b then x :: pick b mask' l' else pick b mask' l'
  | _, _ => []
  end.

(** A request to the catalog endpoint or to the transaction endpoint. *)
Definition is_store_request (r : request) : bool :=
  (request_url r =? FREE_GAMES_URL)%string || (request_url r =? GRAPHQL_URL)%string.

(** ** The completion of an order, read off the answer *)

(** The object under [key] in the object [d]: the empty object when [key]
    is missing, and none when [key] is bound to a value that is not an
    object. *)
Definition child (key : string) (d : list (string * pyval))
  : option (list (string * pyval)) :=
  match dict_get key d with
  | None => Some []
  | Some (PDict d') => Some d'
  | Some _ => None
  end.

(** The value a transaction answer binds to [orderComplete]: the answer has
    status 200, its body is a JSON object, and [data], [purchaseOrder] and
    [orderResponse] lead to an object where [orderComplete] is bound. *)
Definition completion_value (o : http_outcome) : option pyval :=
  match o with
  | Raises => None
  | Returns r =>
      if status_code r =? 200 then
        match json_body r with
        | Some (PDict result) =>
            match child "data" result with
            | Some d =>
                match child "purchaseOrder" d with
                | Some p =>
                    match child "orderResponse" p with
                    | Some order => dict_get "orderComplete" order
                    | None => None
                    end
                | None => None
                end
            | None => None
            end
        | _ => None
        end
      else None
  end.

(** The answer explicitly marks the order complete, in the words of the
    specification: its [orderComplete] is the JSON value [true]. *)
Definition explicitly_complete (o : http_outcome) : Prop :=
  completion_value o = Some (PBool true).

(** ** Further scenarios *)

(** An identity provider that asks for no second factor at login, answers
    a submitted code with status [mfa_status], redirects to [redirect_url]
    and answers a token request with [token_answer]. *)
Definition provider (mfa_status : Z) (redirect_url : string)
  (token_answer : pyval) (r : request) : http_outcome :=
  match r with
  | Post u _ _ =>
      if (u =? LOGIN_URL)%string then ok (PDict [])
      else if (u =? LOGIN_URL ++ "/mfa")%string
      then Returns {| status_code := mfa_status; json_body := None |}
      else if (u =? OAUTH_URL ++ "/token")%string then ok token_answer
      else Raises
  | Get u _ _ =>
      if (u =? REDIRECT_URL)%string
      then ok (PDict [("redirectUrl", PStr redirect_url)])
      else Raises
  end.

Definition redirect_with_code : string :=
  "https://www.epicgames.com/id/login?code=abc123&state=x".

Definition redirect_without_code : string :=
  "https://www.epicgames.com/id/login?error=denied".

(** A token response with a numeric [expires_in]. *)
Definition numeric_tokens : list (string * pyval) :=
  [("access_token", PStr "access-2"); ("refresh_token", PStr "refresh-2");
   ("account_id", PStr "account-1"); ("expires_in", PInt 28800)].

(** A catalog entry whose [price] is [null]. *)
Definition unreadable (i : string) : pyval :=
  PDict [("id", PStr i); ("title", PStr "T"); ("namespace", PStr "ns");
         ("price", PNone)].

(** An order answer whose [orderComplete] is the string ["false"], beside an
    order error. *)
Definition refused_order : pyval :=
  PDict [("data",
          PDict [("purchaseOrder",
                  PDict [("orderResponse",
                          PDict [("orderComplete", PStr "false");
                                 ("orderError", PStr "denied")])])])].

(** A store that lists [items] and answers every order with [answer]. *)
Definition store_answering (items : list pyval) (answer : pyval) (r : request)
  : http_outcome :=
  match r with
  | Get u _ _ => if (u =? FREE_GAMES_URL)%string then ok (catalog items) else Raises
  | Post u _ _ => if (u =? GRAPHQL_URL)%string then ok answer else Raises
  end.

(** An identity provider that asks for a second factor at login and whose
    token endpoint is out of reach until a login request has been made. *)
Definition recovering_identity (before : list request) (r : request)
  : http_outcome :=
  match r with
  | Post u _ _ =>
      if (u =? LOGIN_URL)%string then ok two_factor_answer
      else if (u =? OAUTH_URL ++ "/token")%string
      then if existsb (fun q => (request_url q =? LOGIN_URL)%string) before
           then ok (PDict numeric_tokens)
           else Raises
      else Raises
  | Get _ _ _ => Raises
  end.

Definition recovering_world : world :=
  {| http := recovering_identity; clock := fun _ => 1000;
     disk := fun _ => Written |}.

Definition both_channels : channels :=
  {| telegram_notifier := true; discord_notifier := true |}.

Definition no_channel : channels :=
  {| telegram_notifier := false; discord_notifier := false |}.

(** What may follow the code in a redirect URL: nothing, or [&] and more. *)
Definition ends_or_ampersand (tail : string) : Prop :=
  tail = ""%string \/ exists rest, tail = String "&" rest.

(** * Properties *)


(** Unfolding of the method combinators. *)
Ltac run :=
  unfold bind, try_except, ret, raise, lift, read, assign, and_then in *;
  cbn [fst snd] in *.

(** Case analysis on the innermost scrutinee of the goal. *)
Ltac step :=
  match goal with
  | |- context [match ?x with _ => _ end] =>
      lazymatch x with
      | context [match _ with _ => _ end] => fail
      | _ => destruct x eqn:?
      end
  end; cbn in *.

(** ** Python strings *)

Example py_split_code :
  py_split "code=" "https://x/cb?code=abc&state=1" = ["https://x/cb?"; "abc&state=1"].
Proof. reflexivity. Qed.

Example py_split_twice : py_split "&" "a&b&&c" = ["a"; "b"; ""; "c"].
Proof. reflexivity. Qed.

Example py_split_overlap : py_split "aa" "aaa" = [""; "a"].
Proof. reflexivity. Qed.

(** [time.time() + expires_in]: the largest float is
    [2 ^ 1024 - 2 ^ 971]; an integer converts to a float up to the midpoint
    between it and [2 ^ 1024], and raises [OverflowError] from there on. *)
Example py_add_num_largest :
  py_add_num 1700000000 (PInt (2 ^ 1024 - 2 ^ 970 - 1))
  = Val (1700000000 + (2 ^ 1024 - 2 ^ 970 - 1)) /\
  py_add_num 1700000000 (PInt (2 ^ 1024 - 2 ^ 970)) = Exn /\
  py_add_num 1700000000 (PInt (- (2 ^ 1024 - 2 ^ 970))) = Exn /\
  py_add_num 1700000000 (PStr "28800") = Exn /\
  py_add_num 1700000000 (PBool true) = Val 1700000001.
Proof. repeat split; vm_compute; reflexivity. Qed.

Section Properties.

Variable w : world.

(** ** Authentication *)

Lemma is_token_expired_run (s : client) :
  _is_token_expired w s = (Val (clock w (ticks s) >=? expires_at s - 300), tick s).
Proof. reflexivity. Qed.

Lemma ensure_authenticated_no_token (s : client) :
  truthy (access_token s) = false ->
  ensure_authenticated w s = (Val false, s).
Proof.
  intros H. unfold ensure_authenticated. run. rewrite H. reflexivity.
Qed.

Lemma ensure_authenticated_fresh (s : client) :
  truthy (access_token s) = true ->
  expires_at s > clock w (ticks s) + 300 ->
  ensure_authenticated w s = (Val true, tick s).
Proof.
  intros H Hlt. unfold ensure_authenticated. run. rewrite H. cbn.
  replace (clock w (ticks s) >=? expires_at s - 300) with false; [reflexivity|].
  rewrite Z.geb_leb. symmetry. apply Z.leb_gt. lia.
Qed.

(** With a stale token the answer of [ensure_authenticated] is the answer of
    one call of [_refresh_access_token]. *)
Lemma ensure_authenticated_stale (s : client) :
  truthy (access_token s) = true ->
  expires_at s <= clock w (ticks s) + 300 ->
  ensure_authenticated w s = _refresh_access_token w (tick s).
Proof.
  intros H Hle. unfold ensure_authenticated. run. rewrite H. cbn.
  replace (clock w (ticks s) >=? expires_at s - 300) with true; [reflexivity|].
  rewrite Z.geb_leb. symmetry. apply Z.leb_le. lia.
Qed.

(** C5. [ensure_authenticated] answers [False] when there is no access
    token, leaving the client (and so the request log) untouched; with an
    access token whose [expires_at] is more than 300 seconds after the clock
    reading it answers [True], and only the clock has been read: no request
    is made. *)
Theorem ensure_authenticated_absent_or_fresh (s : client) :
  (truthy (access_token s) = false ->
   ensure_authenticated w s = (Val false, s)) /\
  (truthy (access_token s) = true ->
   expires_at s > clock w (ticks s) + 300 ->
   ensure_authenticated w s = (Val true, tick s) /\ sent (tick s) = sent s).
Proof.
  split.
  - apply ensure_authenticated_no_token.
  - intros H Hlt. split; [now apply ensure_authenticated_fresh | reflexivity].
Qed.


Lemma save_claimed_games_effects (s : client) :
  let r := _save_claimed_games w s in
  fst r = Val tt /\
  credential (snd r) = credential s /\
  authorization (snd r) = authorization s /\
  claimed_games (snd r) = claimed_games s /\
  session_file (snd r) = session_file s /\
  sent (snd r) = sent s /\
  ticks (snd r) = ticks s /\
  writes (snd r) = (ClaimedGamesFile, PList (claimed_games s)) :: writes s /\
  (disk w (length (writes s)) = Written ->
   claimed_games_file (snd r) = Some (PList (claimed_games s))).
Proof.
  unfold _save_claimed_games, write_json. run.
  destruct (disk w (length (writes s))); cbn; repeat split; try reflexivity.
  discriminate.
Qed.

(** [_refresh_access_token] never raises, never touches the ledger, and
    makes at most one request: none without a refresh token, else one. *)
Lemma refresh_effects (s : client) :
  let r := _refresh_access_token w s in
  (fst r = Val true \/ fst r = Val false) /\
  claimed_games (snd r) = claimed_games s /\
  claimed_games_file (snd r) = claimed_games_file s /\
  (if truthy (refresh_token s)
   then sent (snd r) = refresh_request s :: sent s
   else snd r = s).
Proof.
  unfold _refresh_access_token, session_post, response_json, time_time,
    _save_session, write_json, refresh_request.
  run. cbn.
  destruct (truthy (refresh_token s)); cbn; [|auto].
  repeat step; auto.
Qed.

Lemma ensure_authenticated_effects (s : client) :
  let r := ensure_authenticated w s in
  (fst r = Val true \/ fst r = Val false) /\
  claimed_games (snd r) = claimed_games s /\
  claimed_games_file (snd r) = claimed_games_file s /\
  (sent (snd r) = sent s \/ sent (snd r) = refresh_request s :: sent s).
Proof.
  unfold ensure_authenticated. run.
  destruct (truthy (access_token s)); cbn; [|auto].
  destruct (clock w (ticks s) >=? expires_at s - 300); cbn; [|auto].
  destruct (refresh_effects (tick s)) as (Hv & Hc & Hf & Hs).
  split; [exact Hv|]. split; [exact Hc|]. split; [exact Hf|].
  destruct (truthy (refresh_token (tick s))).
  - right. exact Hs.
  - left. change (sent s) with (sent (tick s)). f_equal. exact Hs.
Qed.

(** A refresh that is refused before any attribute is assigned (transport
    failure, a status other than 200, or a body that is not a JSON object)
    answers [False] and leaves everything but the request log as it was. *)
Lemma refresh_refused_keeps_client (s : client) :
  truthy (refresh_token s) = true ->
  (forall d, http w (sent s) (refresh_request s)
             <> Returns {| status_code := 200; json_body := Some (PDict d) |}) ->
  _refresh_access_token w s = (Val false, log_request (refresh_request s) s).
Proof.
  intros Hrt Hno.
  unfold _refresh_access_token, session_post, response_json. run.
  rewrite Hrt. cbn [negb]. fold (refresh_request s).
  destruct (http w (sent s) (refresh_request s)) as [|[c b]] eqn:Hr;
    [reflexivity|].
  cbn [status_code json_body].
  destruct (c =? 200) eqn:Hc; [|reflexivity].
  apply Z.eqb_eq in Hc. subst c.
  destruct b as [[| | | | |d]|]; try reflexivity.
  now elim (Hno d).
Qed.

(** [login] never raises, and unless it returns [(True, None)] it writes no
    file and leaves the ledger alone. *)
Lemma login_failure_saves_nothing (s : client) (username password : string) :
  let r := login w username password s in
  fst r = Val (true, PNone) \/
  ((exists m, fst r = Val (false, m)) /\
   session_file (snd r) = session_file s /\
   writes (snd r) = writes s /\
   claimed_games (snd r) = claimed_games s).
Proof.
  unfold login, session_post, session_get, response_json, time_time,
    _save_session, write_json.
  run. cbn.
  repeat step; auto; right; repeat split; eauto.
Qed.

(** ** Claiming *)

Lemma claim_game_run (s s1 : client) (g : game) :
  ensure_authenticated w s = (Val true, s1) ->
  well_formed g = true ->
  claim_game w g s =
  let tx := purchase_request g s1 in
  if order_complete (http w (sent s1) tx)
  then (Val true, commit_claim w (game_id g) (log_request tx s1))
  else (Val false, log_request tx s1).
Proof.
  intros Hauth Hwf.
  unfold claim_game, well_formed in *. run. rewrite Hauth. cbn.
  rewrite Hwf. cbn.
  unfold session_post, response_json, order_complete, order_response,
    commit_claim, purchase_request, _save_claimed_games, write_json.
  run. cbn.
  repeat step; try reflexivity; try discriminate.
Qed.

Lemma claim_game_unauthenticated (s s1 : client) (g : game) :
  ensure_authenticated w s = (Val false, s1) ->
  claim_game w g s = (Val false, s1).
Proof.
  intros Hauth. unfold claim_game. run. rewrite Hauth. reflexivity.
Qed.

Lemma claim_game_malformed (s s1 : client) (g : game) :
  ensure_authenticated w s = (Val true, s1) ->
  well_formed g = false ->
  claim_game w g s = (Val false, s1).
Proof.
  intros Hauth Hwf. unfold claim_game, well_formed in *. run.
  rewrite Hauth. cbn. rewrite Hwf. reflexivity.
Qed.

(** ** Catalog query *)

Lemma readable_entry_price (item : pyval) :
  readable_entry item = true -> exists p, discount_price item = Val p.
Proof.
  unfold readable_entry, discount_price. run.
  destruct item; try discriminate. cbn.
  destruct (dict_get "price" d) as [[| | | | |p]|]; try discriminate; cbn.
  - destruct (dict_get "totalPrice" p) as [[| | | | |t]|]; try discriminate; cbn.
    + destruct (dict_get "discountPrice" t); eauto.
    + eauto.
  - eauto.
Qed.

Lemma lacks_price_readable (item : pyval) :
  lacks_price item = true -> readable_entry item = true.
Proof.
  unfold lacks_price, readable_entry.
  destruct item; try discriminate.
  destruct (dict_get "price" d) as [[| | | | |p]|]; try discriminate; auto.
  destruct (dict_get "totalPrice" p) as [[| | | | |t]|]; try discriminate; auto.
Qed.

Lemma lacks_price_zero (item : pyval) :
  lacks_price item = true -> discount_price item = Val (PInt 0).
Proof.
  unfold lacks_price, discount_price. run.
  destruct item; try discriminate. cbn.
  destruct (dict_get "price" d) as [[| | | | |p]|]; try discriminate; cbn; auto.
  destruct (dict_get "totalPrice" p) as [[| | | | |t]|]; try discriminate; cbn; auto.
  destruct (dict_get "discountPrice" t); try discriminate; auto.
Qed.

Lemma free_offers_single (claimed : list pyval) (item : pyval) :
  free_offers claimed [item]
  = if is_free item && negb (py_in (entry_id item) claimed)
    then [entry_offer item] else [].
Proof.
  unfold free_offers. cbn.
  destruct (is_free item && negb (py_in (entry_id item) claimed)); reflexivity.
Qed.

Lemma loop_body_readable (claimed : list pyval) (item : pyval) (acc : list game) :
  readable_entry item = true ->
  loop_body claimed item acc = Val (acc ++ free_offers claimed [item])%list.
Proof.
  intros Hr. destruct (readable_entry_price item Hr) as [p Hp].
  rewrite free_offers_single.
  unfold loop_body, is_free. run. rewrite Hp.
  destruct item as [| | | |l|d]; try discriminate.
  destruct (py_eq p (PInt 0)); cbn [andb]; [|now rewrite app_nil_r].
  unfold entry_offer, entry_id, field. cbn [py_get].
  destruct (dict_get "id" d) as [i|], (dict_get "title" d) as [t|];
    (destruct (py_in _ claimed); cbn [negb]; [now rewrite app_nil_r|]);
    destruct (dict_get "namespace" d), (dict_get "description" d),
      (dict_get "urlSlug" d); reflexivity.
Qed.

Lemma free_offers_cons (claimed : list pyval) (item : pyval) (items : list pyval) :
  free_offers claimed (item :: items)
  = (free_offers claimed [item] ++ free_offers claimed items)%list.
Proof.
  unfold free_offers. cbn.
  destruct (is_free item && negb (py_in (entry_id item) claimed)); reflexivity.
Qed.

Lemma for_items_readable (claimed : list pyval) (items : list pyval) :
  forallb readable_entry items = true ->
  forall acc, for_items claimed items acc
              = Val (acc ++ free_offers claimed items)%list.
Proof.
  induction items as [|item items IH]; intros Hall acc.
  - cbn. now rewrite app_nil_r.
  - cbn [forallb] in Hall. apply andb_true_iff in Hall as [Hitem Hrest].
    cbn [for_items]. unfold and_then.
    rewrite (loop_body_readable _ _ _ Hitem).
    rewrite (IH Hrest), (free_offers_cons claimed item items), app_assoc.
    reflexivity.
Qed.

Lemma free_offers_unclaimed (claimed : list pyval) (items : list pyval) :
  Forall (fun g => py_in (game_id g) claimed = false) (free_offers claimed items).
Proof.
  unfold free_offers. apply Forall_forall. intros g Hg.
  apply in_map_iff in Hg as (item & <- & Hin).
  apply filter_In in Hin as [_ Hkeep].
  apply andb_true_iff in Hkeep as [_ Hnot].
  now apply negb_true_iff in Hnot.
Qed.

Lemma get_free_games_run (s s1 : client) (data : pyval) (items : list pyval) :
  ensure_authenticated w s = (Val true, s1) ->
  http w (sent s1) (catalog_request s1)
  = Returns {| status_code := 200; json_body := Some data |} ->
  catalog_elements data = Val (PList items) ->
  forallb readable_entry items = true ->
  get_free_games w s
  = (Val (free_offers (claimed_games s) items),
     log_request (catalog_request s1) s1).
Proof.
  intros Hauth Hhttp Helems Hall.
  pose proof (ensure_authenticated_effects s) as (_ & Hc & _).
  rewrite Hauth in Hc. cbn in Hc.
  unfold get_free_games. run. rewrite Hauth. cbn.
  unfold session_get. fold (catalog_request s1). rewrite Hhttp. cbn.
  unfold response_json. run. cbn. rewrite Helems. cbn.
  rewrite (for_items_readable _ _ Hall). cbn. rewrite Hc. reflexivity.
Qed.

Lemma get_free_games_stop (s s1 : client) :
  ensure_authenticated w s = (Val false, s1) ->
  get_free_games w s = (Val [], s1).
Proof.
  intros Hauth. unfold get_free_games. run. rewrite Hauth. reflexivity.
Qed.

(** C4 (as the code has it). When [ensure_authenticated] answers [False],
    [get_free_games] returns the empty list at once, in the client state
    [ensure_authenticated] left, and no request to the catalog endpoint has
    been added to the log. *)
Theorem get_free_games_unauthenticated_is_empty (s s1 : client) :
  ensure_authenticated w s = (Val false, s1) ->
  get_free_games w s = (Val [], s1) /\
  filter is_catalog_request (sent s1) = filter is_catalog_request (sent s).
Proof.
  intros Hauth. split; [now apply get_free_games_stop|].
  pose proof (ensure_authenticated_effects s) as (_ & _ & _ & Hs).
  rewrite Hauth in Hs. cbn in Hs. destruct Hs as [-> | ->]; reflexivity.
Qed.

(** C9. An authenticated [claim_game] on an offer whose id, namespace or
    title is missing (or otherwise false) returns [False] in the client state
    the authentication check left: no request of its own is made (none at
    all when the token is fresh) and the ledger is unchanged. *)
Theorem claim_game_rejects_incomplete_offer (s s1 : client) (g : game) :
  ensure_authenticated w s = (Val true, s1) ->
  well_formed g = false ->
  claim_game w g s = (Val false, s1) /\
  claimed_games s1 = claimed_games s /\
  claimed_games_file s1 = claimed_games_file s /\
  (expires_at s > clock w (ticks s) + 300 -> sent s1 = sent s).
Proof.
  intros Hauth Hwf.
  pose proof (ensure_authenticated_effects s) as (_ & Hc & Hf & _).
  rewrite Hauth in Hc, Hf. cbn in Hc, Hf.
  repeat split; auto using claim_game_malformed.
  intros Hfresh.
  destruct (truthy (access_token s)) eqn:Ha.
  - rewrite (ensure_authenticated_fresh s Ha Hfresh) in Hauth.
    now inversion Hauth.
  - rewrite (ensure_authenticated_no_token s Ha) in Hauth. discriminate.
Qed.

Lemma order_complete_value (o : http_outcome) :
  order_complete o
  = match completion_value o with
    | Some v => truthy v
    | None => false
    end.
Proof.
  unfold order_complete, completion_value, order_response, child. run.
  destruct o as [|[c body]]; [reflexivity|]. cbn [status_code json_body].
  destruct (c =? 200); [|reflexivity]. cbn [andb].
  destruct body as [[| | | | |result]|]; try reflexivity. cbn [py_get].
  destruct (dict_get "data" result) as [[| | | | |d]|]; try reflexivity;
    cbn [py_get dict_get].
  destruct (dict_get "purchaseOrder" d) as [[| | | | |p]|]; try reflexivity;
    cbn [py_get dict_get].
  destruct (dict_get "orderResponse" p) as [[| | | | |o]|]; try reflexivity;
    cbn [py_get dict_get].
  destruct (dict_get "orderComplete" o); reflexivity.
Qed.

(** C2 (as the code has it). For an authenticated [claim_game] on a
    well-formed offer: it returns [True] exactly when the answer to the
    transaction has status 200 and binds [orderComplete], under
    [data.purchaseOrder.orderResponse], to a value that Python takes for
    true; an answer that explicitly marks the order complete is one such,
    and so is one whose [orderComplete] is a non-empty string.  On [True]
    the id has been appended to the ledger and the ledger file written with
    the new list (the file holds it when the write did not fail); in every
    other case it returns [False] and neither the ledger nor its file has
    changed. *)
Theorem claim_game_outcome (s s1 : client) (g : game) :
  ensure_authenticated w s = (Val true, s1) ->
  well_formed g = true ->
  let tx := purchase_request g s1 in
  let answer := http w (sent s1) tx in
  let r := claim_game w g s in
  let ledger := (claimed_games s ++ [game_id g])%list in
  (fst r = Val true <->
   exists v, completion_value answer = Some v /\ truthy v = true) /\
  (explicitly_complete answer -> fst r = Val true) /\
  (fst r = Val true ->
   claimed_games (snd r) = ledger /\
   writes (snd r) = (ClaimedGamesFile, PList ledger) :: writes s1 /\
   (disk w (length (writes s1)) = Written ->
    claimed_games_file (snd r) = Some (PList ledger))) /\
  (fst r <> Val true ->
   fst r = Val false /\
   claimed_games (snd r) = claimed_games s /\
   claimed_games_file (snd r) = claimed_games_file s /\
   writes (snd r) = writes s1).
Proof.
  intros Hauth Hwf tx answer r ledger. subst r.
  pose proof (ensure_authenticated_effects s) as (_ & Hc & Hf & _).
  rewrite Hauth in Hc, Hf. cbn in Hc, Hf.
  rewrite (claim_game_run s s1 g Hauth Hwf). cbn zeta. fold tx. fold answer.
  unfold explicitly_complete.
  rewrite (order_complete_value answer).
  destruct (completion_value answer) as [v|].
  - destruct (truthy v) eqn:Hv; cbn [fst snd].
    + unfold commit_claim.
      change (claimed_games (log_request tx s1)) with (claimed_games s1).
      rewrite Hc. fold ledger.
      destruct (save_claimed_games_effects
                  (set_claimed_games ledger (log_request tx s1)))
        as (_ & _ & _ & Hl & _ & _ & _ & Hw & Hd).
      cbn in Hl, Hw, Hd.
      split; [split; [intros _; exists v; auto | reflexivity]|].
      split; [reflexivity|].
      split; [auto | intros Hne; now elim Hne].
    + split.
      { split; [discriminate|]. intros (v' & Hv' & Ht).
        inversion Hv'; subst v'. rewrite Ht in Hv. discriminate. }
      split.
      { intros He. inversion He; subst v. discriminate. }
      split; [discriminate|]. intros _. cbn. auto.
  - cbn [fst snd]. split.
    { split; [discriminate|]. intros (v' & Hv' & _). discriminate. }
    split; [discriminate|].
    split; [discriminate|]. intros _. cbn. auto.
Qed.

(** C1 (as the code has it). After a [claim_game] that returned [True], a
    second authenticated [claim_game] on the same offer makes the
    purchase-order request again, whatever the ledger holds.  When that
    second transaction does not mark the order complete the call returns
    [False] and the ledger keeps the single copy the first call appended;
    when it does, the call returns [True] and the id is appended once more. *)
Theorem claim_game_twice (s s1 s1a : client) (g : game) :
  claim_game w g s = (Val true, s1) ->
  ensure_authenticated w s1 = (Val true, s1a) ->
  let tx := purchase_request g s1a in
  let r := claim_game w g s1 in
  sent (snd r) = tx :: sent s1a /\
  claimed_games s1 = (claimed_games s ++ [game_id g])%list /\
  (if order_complete (http w (sent s1a) tx)
   then fst r = Val true /\
        claimed_games (snd r)
        = (claimed_games s ++ [game_id g; game_id g])%list
   else fst r = Val false /\
        claimed_games (snd r) = (claimed_games s ++ [game_id g])%list).
Proof.
  intros Hfirst Hauth2 tx r. subst r.
  assert (Hwf : well_formed g = true /\
                claimed_games s1 = (claimed_games s ++ [game_id g])%list).
  { destruct (ensure_authenticated w s) as [b s0] eqn:Hauth1.
    pose proof (ensure_authenticated_effects s) as ([Hv | Hv] & Hc & _);
      rewrite Hauth1 in Hv, Hc; cbn in Hv, Hc; subst b.
    - destruct (well_formed g) eqn:Hwf.
      + split; [reflexivity|].
        rewrite (claim_game_run s s0 g Hauth1 Hwf) in Hfirst. cbn zeta in Hfirst.
        destruct (order_complete _); [|discriminate].
        inversion Hfirst as [Hs1]. unfold commit_claim.
        match goal with
        | |- context [_save_claimed_games w ?x] =>
            destruct (save_claimed_games_effects x) as (_ & _ & _ & Hl & _)
        end.
        rewrite Hl. cbn. now rewrite Hc.
      + rewrite (claim_game_malformed s s0 g Hauth1 Hwf) in Hfirst. discriminate.
    - rewrite (claim_game_unauthenticated s s0 g Hauth1) in Hfirst. discriminate. }
  destruct Hwf as [Hwf Hledger].
  pose proof (ensure_authenticated_effects s1) as (_ & Hc & _).
  rewrite Hauth2 in Hc. cbn in Hc.
  rewrite (claim_game_run s1 s1a g Hauth2 Hwf). cbn zeta. fold tx.
  destruct (order_complete (http w (sent s1a) tx)); cbn [fst snd].
  - unfold commit_claim.
    match goal with
    | |- context [_save_claimed_games w ?x] =>
        destruct (save_claimed_games_effects x)
          as (_ & _ & _ & Hl & _ & Hs & _)
    end.
    rewrite Hl, Hs. cbn. rewrite Hc, Hledger, <- app_assoc. auto.
  - cbn. rewrite Hc. auto.
Qed.

(** ** Login *)

(** C8 (as the code has it). When the login request is answered with
    status 200 and a JSON object whose [twoFactorRequired] is true and that
    names a method, [login] returns [(False, method)], read by its callers
    as [TwoFactorRequired method]; only the request log has grown: the
    credential, the session file and the write log are as before.  The
    client keeps no pending state, so what [ensure_authenticated] answers
    next depends on the credential alone: [False] without an access token,
    [True] with a fresh one, and with a stale one whatever a new refresh
    gives. *)
Theorem login_two_factor_required
  (s : client) (username password : string)
  (d : list (string * pyval)) (tfa method : pyval) :
  http w (sent s) (login_request username password s)
  = Returns {| status_code := 200; json_body := Some (PDict d) |} ->
  dict_get "twoFactorRequired" d = Some tfa ->
  truthy tfa = true ->
  dict_get "method" d = Some method ->
  let r := login w username password s in
  fst r = Val (false, method) /\
  (truthy method = true ->
   login_result (false, method) = TwoFactorRequired method) /\
  snd r = log_request (login_request username password s) s /\
  credential (snd r) = credential s /\
  session_file (snd r) = session_file s /\
  writes (snd r) = writes s /\
  (truthy (access_token s) = false ->
   ensure_authenticated w (snd r) = (Val false, snd r)) /\
  (truthy (access_token s) = true ->
   expires_at s > clock w (ticks s) + 300 ->
   ensure_authenticated w (snd r) = (Val true, tick (snd r))) /\
  (truthy (access_token s) = true ->
   expires_at s <= clock w (ticks s) + 300 ->
   ensure_authenticated w (snd r) = _refresh_access_token w (tick (snd r))).
Proof.
  intros Hhttp Htfa Htrue Hmethod r. subst r.
  unfold login, session_post. unfold login_request in *. run. cbn.
  rewrite Hhttp. cbn. unfold response_json. run. cbn.
  rewrite Htfa. cbn. rewrite Htrue. cbn. rewrite Hmethod. cbn.
  split; [reflexivity|]. split.
  { intros Hm. unfold login_result. cbn. now rewrite Hm. }
  do 4 (split; [reflexivity|]).
  split.
  { intros Hnone.
    exact (ensure_authenticated_no_token (log_request _ s) Hnone). }
  split.
  { intros Ha Hfresh.
    exact (ensure_authenticated_fresh (log_request _ s) Ha Hfresh). }
  intros Ha Hstale.
  exact (ensure_authenticated_stale (log_request _ s) Ha Hstale).
Qed.

End Properties.

(** * The properties on the scenarios *)

Lemma ensure_authenticated_absent_or_fresh_witness :
  let w := world_of (store abc_catalog) Written in
  let s := logged_in 30000 [] in
  ensure_authenticated w first_run = (Val false, first_run) /\
  ensure_authenticated w s = (Val true, tick s) /\ sent (tick s) = sent s.
Proof.
  intros w s. split.
  - apply (proj1 (ensure_authenticated_absent_or_fresh w first_run)).
    reflexivity.
  - apply (proj2 (ensure_authenticated_absent_or_fresh w s)).
    + reflexivity.
    + cbn. lia.
Defined.

Lemma get_free_games_unauthenticated_is_empty_witness :
  let w := world_of (store abc_catalog) Written in
  let s := logged_in 1000 [] in
  let s1 := log_request (refresh_request s) (tick s) in
  get_free_games w s = (Val [], s1) /\
  filter is_catalog_request (sent s1) = filter is_catalog_request (sent s).
Proof.
  intros w s s1.
  apply (get_free_games_unauthenticated_is_empty w s s1).
  reflexivity.
Defined.

(** C4, as stated, fails: the answer of [get_free_games] to a client without
    a session is the very answer a signed-in client gets from a catalog
    without entries, so no NotAuthenticated outcome reaches the caller. *)
Lemma unauthenticated_answer_is_the_empty_catalog_answer :
  let w := world_of (store []) Written in
  fst (ensure_authenticated w first_run) = Val false /\
  fst (ensure_authenticated w (logged_in 30000 [])) = Val true /\
  sent (snd (get_free_games w (logged_in 30000 [])))
  = [catalog_request (logged_in 30000 [])] /\
  fst (get_free_games w first_run) = Val [] /\
  fst (get_free_games w first_run)
  = fst (get_free_games w (logged_in 30000 [])).
Proof. cbv zeta. repeat split; reflexivity. Qed.

Lemma claim_game_rejects_incomplete_offer_witness :
  let w := world_of (store abc_catalog) Written in
  let s := logged_in 30000 [] in
  claim_game w game_without_namespace s = (Val false, tick s) /\
  claimed_games (tick s) = claimed_games s /\
  claimed_games_file (tick s) = claimed_games_file s /\
  (expires_at s > clock w (ticks s) + 300 -> sent (tick s) = sent s).
Proof.
  intros w s.
  apply (claim_game_rejects_incomplete_offer w s (tick s) game_without_namespace);
    reflexivity.
Defined.

Lemma claim_game_outcome_witness :
  let w := world_of (store abc_catalog) Written in
  let s := logged_in 30000 [PStr "a"] in
  let answer := http w (sent (tick s)) (purchase_request game_c (tick s)) in
  let r := claim_game w game_c s in
  (fst r = Val true <->
   exists v, completion_value answer = Some v /\ truthy v = true) /\
  (explicitly_complete answer -> fst r = Val true) /\
  (fst r = Val true ->
   claimed_games (snd r) = [PStr "a"; PStr "c"] /\
   writes (snd r) = [(ClaimedGamesFile, PList [PStr "a"; PStr "c"])] /\
   (disk w (length (writes (tick s))) = Written ->
    claimed_games_file (snd r) = Some (PList [PStr "a"; PStr "c"]))) /\
  (fst r <> Val true ->
   fst r = Val false /\
   claimed_games (snd r) = [PStr "a"] /\
   claimed_games_file (snd r) = Some (PList [PStr "a"]) /\
   writes (snd r) = []).
Proof.
  intros w s.
  apply (claim_game_outcome w s (tick s) game_c); reflexivity.
Defined.

(** C2, as stated, fails twice over.  An answer of status 200 whose
    [orderComplete] is the string ["false"], beside an order error, does not
    mark the order complete, yet [claim_game] returns [True] and appends the
    id.  And when the write of the ledger file raises, [claim_game] still
    returns [True] with the file holding the old list. *)
Lemma claim_game_true_without_completion_or_save :
  let s := logged_in 30000 [PStr "a"] in
  let w1 := world_of (store_answering abc_catalog refused_order) Written in
  let r1 := claim_game w1 game_c s in
  let w2 := world_of (store abc_catalog) (WriteFails (Some (PList [PStr "a"]))) in
  let r2 := claim_game w2 game_c s in
  (completion_value
     (http w1 (sent (tick s)) (purchase_request game_c (tick s)))
   = Some (PStr "false") /\
   ~ explicitly_complete
       (http w1 (sent (tick s)) (purchase_request game_c (tick s))) /\
   fst r1 = Val true /\
   claimed_games (snd r1) = [PStr "a"; PStr "c"]) /\
  (fst r2 = Val true /\
   claimed_games (snd r2) = [PStr "a"; PStr "c"] /\
   claimed_games_file (snd r2) = Some (PList [PStr "a"])).
Proof.
  cbv zeta. split.
  - split; [reflexivity|]. split.
    + unfold explicitly_complete. intros H. vm_compute in H. discriminate H.
    + split; reflexivity.
  - repeat split; reflexivity.
Qed.

Lemma claim_game_twice_witness :
  let w := world_of (store abc_catalog) Written in
  let s := logged_in 30000 [] in
  let s1 := snd (claim_game w game_c s) in
  let r := claim_game w game_c s1 in
  sent (snd r) = purchase_request game_c (tick s1) :: sent (tick s1) /\
  claimed_games s1 = [PStr "c"] /\
  (if order_complete (http w (sent (tick s1)) (purchase_request game_c (tick s1)))
   then fst r = Val true /\ claimed_games (snd r) = [PStr "c"; PStr "c"]
   else fst r = Val false /\ claimed_games (snd r) = [PStr "c"]).
Proof.
  intros w s s1.
  apply (claim_game_twice w s s1 (tick s1) game_c); reflexivity.
Defined.

(** C1, as stated, fails: when the second transaction also marks the order
    complete, the id is appended again and the ledger holds two copies. *)
Lemma second_completed_claim_duplicates_id :
  let w := world_of (store abc_catalog) Written in
  let first := claim_game w game_c (logged_in 30000 []) in
  let second := claim_game w game_c (snd first) in
  fst first = Val true /\
  copies (PStr "c") (claimed_games (snd first)) = 1%nat /\
  fst second = Val true /\
  claimed_games (snd second) = [PStr "c"; PStr "c"] /\
  copies (PStr "c") (claimed_games (snd second)) <> 1%nat.
Proof.
  cbv zeta. repeat split; try reflexivity.
  vm_compute. discriminate.
Qed.

Lemma login_two_factor_required_witness :
  let w := world_of (identity two_factor_answer string_expiry_tokens) Written in
  let r := login w "user@example.com" "secret" first_run in
  fst r = Val (false, PStr "email") /\
  (truthy (PStr "email") = true ->
   login_result (false, PStr "email") = TwoFactorRequired (PStr "email")) /\
  snd r = log_request (login_request "user@example.com" "secret" first_run)
                      first_run /\
  credential (snd r) = credential first_run /\
  session_file (snd r) = session_file first_run /\
  writes (snd r) = writes first_run /\
  (truthy (access_token first_run) = false ->
   ensure_authenticated w (snd r) = (Val false, snd r)) /\
  (truthy (access_token first_run) = true ->
   expires_at first_run > clock w (ticks first_run) + 300 ->
   ensure_authenticated w (snd r) = (Val true, tick (snd r))) /\
  (truthy (access_token first_run) = true ->
   expires_at first_run <= clock w (ticks first_run) + 300 ->
   ensure_authenticated w (snd r) = _refresh_access_token w (tick (snd r))).
Proof.
  intros w.
  apply (login_two_factor_required
           w first_run "user@example.com" "secret"
           [("twoFactorRequired", PBool true); ("method", PStr "email")]
           (PBool true) (PStr "email"));
    reflexivity.
Defined.

(** C8, as stated, fails: a client whose stale token could not be
    refreshed gets [False] from [ensure_authenticated]; [login] then
    returns [(False, "email")], issuing no token; and the next
    [ensure_authenticated], finding the token endpoint in reach again,
    refreshes the old credential and answers [True]. *)
Lemma ensure_authenticated_true_after_two_factor_required :
  let w := recovering_world in
  let s := logged_in 1000 [] in
  let before := ensure_authenticated w s in
  let r := login w "user@example.com" "secret" (snd before) in
  let after := ensure_authenticated w (snd r) in
  fst before = Val false /\
  credential (snd before) = credential s /\
  fst r = Val (false, PStr "email") /\
  credential (snd r) = credential s /\
  fst after = Val true.
Proof. cbv zeta. repeat split; reflexivity. Qed.

(** C6, on a token response whose [expires_in] is a string: the token is
    stale, the one refresh request is made, [ensure_authenticated] answers
    [False], and yet [access_token] and [refresh_token] have been replaced;
    nothing was saved. *)
Theorem failed_refresh_replaces_tokens :
  let w := world_of (identity (PDict []) string_expiry_tokens) Written in
  let s := logged_in 1000 [] in
  let r := ensure_authenticated w s in
  expires_at s <= clock w (ticks s) + 300 /\
  fst r = Val false /\
  sent (snd r) = [refresh_request s] /\
  credential s = (PStr "access-1", PStr "refresh-1", PStr "account-1", 1000) /\
  credential (snd r)
  = (PStr "access-2", PStr "refresh-2", PStr "account-1", 1000) /\
  authorization (snd r) = Some (PStr "access-1") /\
  session_file (snd r) = session_file s /\
  writes (snd r) = [].
Proof.
  cbv zeta. split; [cbn; lia|]. repeat split; reflexivity.
Qed.

(** C7, on a token response whose [expires_in] is a string: [login] returns
    [(False, None)], read as [Failed], with nothing saved, and yet the
    client that had no credential now holds the access token, the refresh
    token and the account id of the response. *)
Theorem failed_login_keeps_new_tokens :
  let w := world_of (identity (PDict []) string_expiry_tokens) Written in
  let r := login w "user@example.com" "secret" first_run in
  fst r = Val (false, PNone) /\
  login_result (false, PNone) = Failed /\
  credential first_run = (PNone, PNone, PNone, 0) /\
  credential (snd r)
  = (PStr "access-2", PStr "refresh-2", PStr "account-1", 0) /\
  truthy (access_token (snd r)) = true /\
  session_file (snd r) = None /\
  writes (snd r) = [].
Proof. cbv zeta. repeat split; reflexivity. Qed.

(** * Further properties of the client *)

#[local] Arguments py_add_num : simpl never.

Section MoreProperties.

Variable w : world.

(** ** What no method does *)

Lemma login_effects (s : client) (username password : string) :
  let r := login w username password s in
  (exists b m, fst r = Val (b, m)) /\
  claimed_games (snd r) = claimed_games s /\
  claimed_games_file (snd r) = claimed_games_file s.
Proof.
  unfold login, session_post, session_get, response_json, time_time,
    _save_session, write_json.
  run. cbn.
  repeat step; repeat split; eauto.
Qed.

Lemma complete_2fa_effects (s : client) (code : string) :
  let r := complete_2fa w code s in
  (fst r = Val true \/
   (fst r = Val false /\
    session_file (snd r) = session_file s /\ writes (snd r) = writes s)) /\
  claimed_games (snd r) = claimed_games s /\
  claimed_games_file (snd r) = claimed_games_file s.
Proof.
  unfold complete_2fa, session_post, session_get, response_json, time_time,
    _save_session, write_json.
  run. cbn.
  repeat step; repeat split; auto.
Qed.

(** After the authentication check, [get_free_games] either stops or makes
    the one catalog request; it never raises. *)
Lemma get_free_games_effects (s : client) :
  let a := ensure_authenticated w s in
  let r := get_free_games w s in
  (exists l, fst r = Val l) /\
  (snd r = snd a \/ snd r = log_request (catalog_request (snd a)) (snd a)).
Proof.
  cbv zeta.
  destruct (ensure_authenticated_effects w s) as (Hv & _).
  unfold get_free_games. run.
  destruct (ensure_authenticated w s) as [b s1]. cbn in Hv |- *.
  destruct Hv as [-> | ->]; cbn; [|eauto].
  unfold session_get, response_json. fold (catalog_request s1). run.
  destruct (http w (sent s1) (catalog_request s1)) as [|[c body]]; cbn; [eauto|].
  destruct (c =? 200); cbn; [|eauto].
  destruct body as [data|]; cbn; [|eauto].
  destruct (catalog_elements data) as [elements|]; cbn; [|eauto].
  destruct (py_iter elements) as [items|]; cbn; [|eauto].
  destruct (for_items (claimed_games s1) items []); cbn; eauto.
Qed.

Lemma claim_game_effects (s : client) (g : game) :
  let r := claim_game w g s in
  (fst r = Val true /\
   claimed_games (snd r) = (claimed_games s ++ [game_id g])%list) \/
  (fst r = Val false /\
   claimed_games (snd r) = claimed_games s /\
   claimed_games_file (snd r) = claimed_games_file s).
Proof.
  cbv zeta.
  destruct (ensure_authenticated_effects w s) as (Hv & Hc & Hf & _).
  destruct (ensure_authenticated w s) as [b s1] eqn:Hauth. cbn in Hv, Hc, Hf.
  destruct Hv as [-> | ->].
  - destruct (well_formed g) eqn:Hwf.
    + rewrite (claim_game_run w s s1 g Hauth Hwf). cbv zeta.
      destruct (order_complete _); cbn [fst snd].
      * left. split; [reflexivity|]. unfold commit_claim.
        match goal with
        | |- context [_save_claimed_games w ?x] =>
            destruct (save_claimed_games_effects w x) as (_ & _ & _ & Hl & _)
        end.
        rewrite Hl. cbn. now rewrite Hc.
      * right. cbn. auto.
    + rewrite (claim_game_malformed w s s1 g Hauth Hwf). right. cbn. auto.
  - rewrite (claim_game_unauthenticated w s s1 g Hauth). right. cbn. auto.
Qed.

(** X1. On a client whose [expires_at] is a number and whose ledger is a
    list (the type of [client]), no method lets an exception escape: each
    returns a value whatever the servers answer and whatever the disk
    does. *)
Theorem client_methods_never_raise
  (s : client) (g : game) (username password code : string) :
  fst (ensure_authenticated w s) <> Exn /\
  fst (_refresh_access_token w s) <> Exn /\
  fst (login w username password s) <> Exn /\
  fst (complete_2fa w code s) <> Exn /\
  fst (get_free_games w s) <> Exn /\
  fst (claim_game w g s) <> Exn.
Proof.
  repeat split.
  - destruct (ensure_authenticated_effects w s) as ([H | H] & _);
      rewrite H; discriminate.
  - destruct (refresh_effects w s) as ([H | H] & _); rewrite H; discriminate.
  - destruct (login_effects s username password) as ((b & m & H) & _).
    rewrite H. discriminate.
  - destruct (complete_2fa_effects s code) as ([H | (H & _)] & _);
      rewrite H; discriminate.
  - destruct (get_free_games_effects s) as ((l & H) & _).
    rewrite H. discriminate.
  - destruct (claim_game_effects s g) as [(H & _) | (H & _)];
      rewrite H; discriminate.
Qed.

(** X2. The ledger is append-only.  [claim_game] leaves it as it is or
    appends the id of the offer, and leaves the ledger file alone unless it
    returns [True]; no other method changes the ledger or its file. *)
Theorem ledger_is_append_only
  (s : client) (g : game) (username password code : string) :
  ((fst (claim_game w g s) = Val true /\
    claimed_games (snd (claim_game w g s))
    = (claimed_games s ++ [game_id g])%list) \/
   (fst (claim_game w g s) = Val false /\
    claimed_games (snd (claim_game w g s)) = claimed_games s /\
    claimed_games_file (snd (claim_game w g s)) = claimed_games_file s)) /\
  (claimed_games (snd (ensure_authenticated w s)) = claimed_games s /\
   claimed_games_file (snd (ensure_authenticated w s)) = claimed_games_file s) /\
  (claimed_games (snd (_refresh_access_token w s)) = claimed_games s /\
   claimed_games_file (snd (_refresh_access_token w s)) = claimed_games_file s) /\
  (claimed_games (snd (login w username password s)) = claimed_games s /\
   claimed_games_file (snd (login w username password s))
   = claimed_games_file s) /\
  (claimed_games (snd (complete_2fa w code s)) = claimed_games s /\
   claimed_games_file (snd (complete_2fa w code s)) = claimed_games_file s) /\
  (claimed_games (snd (get_free_games w s)) = claimed_games s /\
   claimed_games_file (snd (get_free_games w s)) = claimed_games_file s).
Proof.
  split; [apply claim_game_effects|].
  destruct (ensure_authenticated_effects w s) as (_ & Hc & Hf & _).
  split; [auto|].
  split; [destruct (refresh_effects w s) as (_ & H1 & H2 & _); auto|].
  split; [destruct (login_effects s username password) as (_ & H1 & H2); auto|].
  split; [destruct (complete_2fa_effects s code) as (_ & H1 & H2); auto|].
  destruct (get_free_games_effects s) as (_ & [H | H]); rewrite H; cbn; auto.
Qed.

(** ** The catalog query on any answer *)

Lemma unreadable_entry_raises (item : pyval) :
  readable_entry item = false -> discount_price item = Exn.
Proof.
  unfold readable_entry, discount_price. run.
  destruct item; try reflexivity. cbn.
  destruct (dict_get "price" d) as [[| | | | |p]|]; try discriminate;
    try reflexivity; cbn.
  destruct (dict_get "totalPrice" p) as [[| | | | |t]|]; try discriminate;
    reflexivity.
Qed.

Lemma for_items_unreadable (claimed : list pyval) (items : list pyval) :
  forallb readable_entry items = false ->
  forall acc, for_items claimed items acc = Exn.
Proof.
  induction items as [|item items IH]; intros Hall acc; [discriminate|].
  cbn [forallb] in Hall. cbn [for_items]. unfold and_then.
  destruct (readable_entry item) eqn:Hitem.
  - rewrite (loop_body_readable claimed item acc Hitem). now apply IH.
  - unfold loop_body, and_then. now rewrite (unreadable_entry_raises item Hitem).
Qed.

(** Iterating over anything but a list gives strings, on which the loop
    raises at once. *)
Lemma for_items_strings (claimed : list pyval) (l : list string) :
  match for_items claimed (map PStr l) [] with
  | Val r => r = []
  | Exn => True
  end.
Proof. destruct l; cbn; auto. Qed.

Lemma get_free_games_total (s s1 : client) :
  ensure_authenticated w s = (Val true, s1) ->
  get_free_games w s
  = (Val (catalog_offers (claimed_games s) (http w (sent s1) (catalog_request s1))),
     log_request (catalog_request s1) s1).
Proof.
  intros Hauth.
  pose proof (ensure_authenticated_effects w s) as (_ & Hc & _).
  rewrite Hauth in Hc. cbn in Hc.
  unfold get_free_games, catalog_offers. run. rewrite Hauth. cbn.
  unfold session_get, response_json. fold (catalog_request s1). run.
  destruct (http w (sent s1) (catalog_request s1)) as [|[c body]]; cbn;
    [reflexivity|].
  destruct (c =? 200); cbn; [|reflexivity].
  destruct body as [data|]; cbn; [|reflexivity].
  destruct (catalog_elements data) as [elements|]; cbn; [|reflexivity].
  rewrite Hc.
  destruct elements as [| | |str|items|d]; cbn; try reflexivity.
  - pose proof (for_items_strings (claimed_games s)
                  (map (fun c => String c EmptyString) (list_ascii_of_string str)))
      as H.
    rewrite map_map in H.
    destruct (for_items _ _ _); [now subst|reflexivity].
  - destruct (forallb readable_entry items) eqn:Hall.
    + now rewrite (for_items_readable (claimed_games s) items Hall).
    + now rewrite (for_items_unreadable (claimed_games s) items Hall).
  - pose proof (for_items_strings (claimed_games s) (map fst d)) as H.
    rewrite map_map in H.
    destruct (for_items _ _ _); [now subst|reflexivity].
Qed.

Lemma catalog_offers_unclaimed (claimed : list pyval) (o : http_outcome) :
  Forall (fun g => py_in (game_id g) claimed = false) (catalog_offers claimed o).
Proof.
  unfold catalog_offers.
  destruct o as [|r]; [constructor|].
  destruct (status_code r =? 200); [|constructor].
  destruct (json_body r) as [data|]; [|constructor].
  destruct (catalog_elements data) as [[| | | |items|]|]; try constructor.
  destruct (forallb readable_entry items); [|constructor].
  apply free_offers_unclaimed.
Qed.

Lemma get_free_games_unclaimed (s : client) :
  exists l,
    fst (get_free_games w s) = Val l /\
    Forall (fun g => py_in (game_id g) (claimed_games s) = false) l.
Proof.
  destruct (ensure_authenticated_effects w s) as (Hv & _).
  destruct (ensure_authenticated w s) as [b s1] eqn:Hauth. cbn in Hv.
  destruct Hv as [-> | ->].
  - rewrite (get_free_games_total s s1 Hauth). cbn.
    eexists. split; [reflexivity|]. apply catalog_offers_unclaimed.
  - rewrite (get_free_games_stop w s s1 Hauth). cbn.
    exists []. split; [reflexivity|constructor].
Qed.

(** C3 (as the code has it). For a catalog response with status 200 whose
    [elements] is a list: when every entry is readable (a JSON object whose
    [price], if present, is an object whose [totalPrice], if present, is an
    object), an authenticated [get_free_games] returns exactly the entries
    with a zero discount price whose id is not in the ledger, as Offer
    records and in the order of the response; when some entry is not
    readable it returns the empty list.  Either way the ledger and its file
    are unchanged and no returned offer has its id in the ledger. *)
Theorem get_free_games_on_catalog_response
  (s s1 : client) (data : pyval) (items : list pyval) :
  ensure_authenticated w s = (Val true, s1) ->
  http w (sent s1) (catalog_request s1)
  = Returns {| status_code := 200; json_body := Some data |} ->
  catalog_elements data = Val (PList items) ->
  let offers := if forallb readable_entry items
                then free_offers (claimed_games s) items
                else [] in
  fst (get_free_games w s) = Val offers /\
  claimed_games (snd (get_free_games w s)) = claimed_games s /\
  claimed_games_file (snd (get_free_games w s)) = claimed_games_file s /\
  Forall (fun g => py_in (game_id g) (claimed_games s) = false) offers.
Proof.
  intros Hauth Hhttp Helems offers.
  pose proof (ensure_authenticated_effects w s) as (_ & Hc & Hf & _).
  rewrite Hauth in Hc, Hf. cbn in Hc, Hf.
  rewrite (get_free_games_total s s1 Hauth). cbn [fst snd].
  unfold catalog_offers. rewrite Hhttp. cbn [status_code json_body].
  change (200 =? 200) with true. cbv iota. rewrite Helems. fold offers.
  split; [reflexivity|]. split; [exact Hc|]. split; [exact Hf|].
  subst offers. destruct (forallb readable_entry items);
    [apply free_offers_unclaimed | constructor].
Qed.

(** C10 (as the code has it). A catalog entry without [price] (or without
    [totalPrice] or [discountPrice] under it) has discount price 0 and so
    counts as free.  When its id is not in the ledger and every entry of the
    response is readable, its Offer record is among those [get_free_games]
    returns; when another entry of the response is not readable,
    [get_free_games] returns the empty list. *)
Theorem entry_without_price_is_free
  (s s1 : client) (data : pyval) (items : list pyval) (item : pyval) :
  ensure_authenticated w s = (Val true, s1) ->
  http w (sent s1) (catalog_request s1)
  = Returns {| status_code := 200; json_body := Some data |} ->
  catalog_elements data = Val (PList items) ->
  In item items ->
  lacks_price item = true ->
  py_in (entry_id item) (claimed_games s) = false ->
  discount_price item = Val (PInt 0) /\
  is_free item = true /\
  readable_entry item = true /\
  (forallb readable_entry items = true ->
   exists offers,
     fst (get_free_games w s) = Val offers /\ In (entry_offer item) offers) /\
  (forallb readable_entry items = false ->
   fst (get_free_games w s) = Val []).
Proof.
  intros Hauth Hhttp Helems Hin Hlack Hnew.
  pose proof (lacks_price_zero item Hlack) as Hzero.
  assert (Hfree : is_free item = true) by (unfold is_free; now rewrite Hzero).
  assert (Hrun : fst (get_free_games w s)
                 = Val (if forallb readable_entry items
                        then free_offers (claimed_games s) items else [])).
  { rewrite (get_free_games_total s s1 Hauth). cbn [fst].
    unfold catalog_offers. rewrite Hhttp. cbn [status_code json_body].
    change (200 =? 200) with true. cbv iota. now rewrite Helems. }
  split; [exact Hzero|]. split; [exact Hfree|].
  split; [now apply lacks_price_readable|].
  split.
  - intros Hall. exists (free_offers (claimed_games s) items).
    rewrite Hrun, Hall. split; [reflexivity|].
    unfold free_offers. apply in_map, filter_In. split; [exact Hin|].
    now rewrite Hfree, Hnew.
  - intros Hall. now rewrite Hrun, Hall.
Qed.

(** X3. The answer of an authenticated [get_free_games] on any answer of
    the catalog endpoint: the unclaimed free entries when the answer has
    status 200 and its [elements] is a list of readable entries; the empty
    list in every other case (transport failure, another status, a body that
    is not JSON, a different shape, or a single unreadable entry among
    readable free ones).  Exactly one catalog request is made. *)
Theorem get_free_games_on_any_answer (s s1 : client) :
  ensure_authenticated w s = (Val true, s1) ->
  fst (get_free_games w s)
  = Val (catalog_offers (claimed_games s)
                        (http w (sent s1) (catalog_request s1))) /\
  sent (snd (get_free_games w s)) = catalog_request s1 :: sent s1.
Proof.
  intros Hauth. rewrite (get_free_games_total s s1 Hauth). split; reflexivity.
Qed.

(** X4. Whatever the state of the client and the answers of the servers,
    [get_free_games] returns a list, and no offer in it has its id in the
    ledger. *)
Theorem get_free_games_never_offers_claimed (s : client) :
  exists l,
    fst (get_free_games w s) = Val l /\
    Forall (fun g => py_in (game_id g) (claimed_games s) = false) l.
Proof. apply get_free_games_unclaimed. Qed.

(** X5. Once [claim_game] has returned [True] for an offer whose id is a
    string, a following [get_free_games] does not return an offer with that
    id, whatever the catalog answers. *)
Theorem claimed_offer_is_not_offered_again
  (s s1 : client) (g : game) (i : string) :
  game_id g = PStr i ->
  claim_game w g s = (Val true, s1) ->
  exists l,
    fst (get_free_games w s1) = Val l /\
    Forall (fun g' => game_id g' <> PStr i) l.
Proof.
  intros Hid Hclaim.
  assert (Hin : py_in (PStr i) (claimed_games s1) = true).
  { destruct (claim_game_effects s g) as [(_ & Hl) | (Hv & _)];
      rewrite Hclaim in *; cbn in *; [|discriminate].
    rewrite Hl, Hid. unfold py_in. rewrite existsb_app. cbn.
    rewrite String.eqb_refl. now rewrite orb_true_r. }
  destruct (get_free_games_unclaimed s1) as (l & Hl & Hall).
  exists l. split; [exact Hl|].
  apply Forall_forall. intros g' Hg' Heq.
  rewrite Forall_forall in Hall. specialize (Hall g' Hg').
  rewrite Heq, Hin in Hall. discriminate.
Qed.

(** ** Signing in *)



Lemma split_from_absent (sep : string) (s : string) :
  occurs sep s = false ->
  forall cur,
    split_from sep O cur s
    = [string_of_list_ascii (rev cur ++ list_ascii_of_string s)].
Proof.
  induction s as [|c s IH]; intros Hno cur.
  - cbn. now rewrite app_nil_r.
  - cbn [occurs] in Hno. apply orb_false_iff in Hno as [Hhere Hlater].
    cbn [split_from]. rewrite Hhere, (IH Hlater). cbn [rev list_ascii_of_string].
    now rewrite <- app_assoc.
Qed.

Lemma py_split_absent (sep s : string) :
  occurs sep s = false -> py_split sep s = [s].
Proof.
  intros Hno. unfold py_split. rewrite (split_from_absent sep s Hno).
  cbn. now rewrite string_of_list_ascii_of_string.
Qed.

Lemma login_without_code (s : client) (username password : string)
  (login_answer : list (string * pyval)) (redirect_data : pyval) :
  let s1 := log_request (login_request username password s) s in
  http w (sent s) (login_request username password s)
  = Returns {| status_code := 200; json_body := Some (PDict login_answer) |} ->
  truthy (field (PDict login_answer) "twoFactorRequired" (PBool false)) = false ->
  http w (sent s1) (redirect_request s1)
  = Returns {| status_code := 200; json_body := Some redirect_data |} ->
  authorization_code redirect_data = Exn ->
  login w username password s
  = (Val (false, PNone), log_request (redirect_request s1) s1).
Proof.
  intros s1 Hlogin Hno2fa Hredirect Hcode.
  unfold login, session_post, session_get, response_json.
  unfold login_request, redirect_request, authorization_code, field in *.
  subst s1. run. cbn in *.
  rewrite Hlogin. cbn.
  destruct (dict_get "twoFactorRequired" login_answer) as [tfa|];
    cbn in Hno2fa |- *; try rewrite Hno2fa; cbn.
  all: rewrite Hredirect; cbn; rewrite Hcode; reflexivity.
Qed.

(** X7. When the redirect answer is a JSON object whose [redirectUrl] is
    missing or is a string without [code=], [login] returns
    [(False, None)] after the login request and the redirect request: no
    token request is made and nothing else in the client has changed. *)
Theorem login_without_code_fails (s : client) (username password : string)
  (login_answer redirect_data : list (string * pyval)) (url : string) :
  let s1 := log_request (login_request username password s) s in
  http w (sent s) (login_request username password s)
  = Returns {| status_code := 200; json_body := Some (PDict login_answer) |} ->
  truthy (field (PDict login_answer) "twoFactorRequired" (PBool false)) = false ->
  http w (sent s1) (redirect_request s1)
  = Returns {| status_code := 200; json_body := Some (PDict redirect_data) |} ->
  field (PDict redirect_data) "redirectUrl" (PStr "") = PStr url ->
  occurs "code=" url = false ->
  login w username password s
  = (Val (false, PNone), log_request (redirect_request s1) s1) /\
  login_result (false, PNone) = Failed.
Proof.
  intros s1 Hlogin Hno2fa Hredirect Hurl Hno.
  split; [|reflexivity].
  apply (login_without_code s username password login_answer
           (PDict redirect_data) Hlogin Hno2fa Hredirect).
  unfold authorization_code, field in *. run. cbn in *.
  destruct (dict_get "redirectUrl" redirect_data) as [v|]; cbn in *.
  - subst v. cbn. now rewrite (py_split_absent "code=" url Hno).
  - reflexivity.
Qed.

(** ** The second factor *)

(** X8. When the answer to the submitted code is a transport failure or
    has a status other than 200, [complete_2fa] returns [False] after that
    one request: no redirect is fetched and nothing else in the client has
    changed. *)
Theorem complete_2fa_rejected (s : client) (code : string) :
  (forall body,
     http w (sent s) (mfa_request code s)
     <> Returns {| status_code := 200; json_body := body |}) ->
  complete_2fa w code s = (Val false, log_request (mfa_request code s) s).
Proof.
  intros Hno. unfold complete_2fa, session_post. run.
  fold (mfa_request code s).
  destruct (http w (sent s) (mfa_request code s)) as [|[c body]] eqn:Hr;
    [reflexivity|].
  cbn [status_code]. destruct (c =? 200) eqn:Hc; [|reflexivity].
  apply Z.eqb_eq in Hc. subst c. now elim (Hno body).
Qed.


(** ** Refreshing *)

Lemma refresh_without_token (s : client) :
  truthy (refresh_token s) = false ->
  _refresh_access_token w s = (Val false, s).
Proof.
  intros H. unfold _refresh_access_token. run. now rewrite H.
Qed.


(** X11. A stale token without a refresh token cannot be renewed:
    [ensure_authenticated] returns [False] having read the clock and made no
    request, and the credential stays as it is. *)
Theorem stale_token_without_refresh_token (s : client) :
  truthy (access_token s) = true ->
  expires_at s <= clock w (ticks s) + 300 ->
  truthy (refresh_token s) = false ->
  ensure_authenticated w s = (Val false, tick s) /\
  sent (tick s) = sent s /\
  credential (tick s) = credential s.
Proof.
  intros Ha Hstale Hrt.
  rewrite (ensure_authenticated_stale w s Ha Hstale).
  rewrite (refresh_without_token (tick s) Hrt). auto.
Qed.

(** ** Start-up *)

(** X12. Restart round trip: when the session and the ledger have been
    saved and the writes succeeded, a client constructed from the two files
    has the same credential and the same ledger; its [Authorization] header
    is set exactly when the access token is true; nothing has been sent. *)
Theorem restart_restores_client (s : client) :
  disk w (length (writes s)) = Written ->
  disk w (S (length (writes s))) = Written ->
  let s' := snd (_save_claimed_games w (snd (_save_session w s))) in
  exists c,
    __init__ (session_file s') (claimed_games_file s') = Some c /\
    credential c = credential s /\
    claimed_games c = claimed_games s /\
    authorization c
    = (if truthy (access_token s) then Some (access_token s) else None) /\
    sent c = [].
Proof.
  intros Hd1 Hd2 s'. subst s'.
  unfold _save_claimed_games, _save_session, write_json. run. cbn.
  rewrite Hd1. cbn. rewrite Hd2. cbn.
  unfold __init__. cbn.
  eexists. split; [reflexivity|]. cbn.
  repeat split.
Qed.

(** X13. Without a usable session file (missing, not JSON, or JSON that is
    not an object), and with a ledger file that holds a list or is missing
    or unreadable, the constructed client has no credential, its ledger is
    the list of the file, and [ensure_authenticated] answers [False] without
    a request; a missing or unreadable ledger file gives the empty
    ledger. *)
Theorem unusable_session_file_means_signed_out
  (session claimed : option pyval) (l : list pyval) :
  (forall d, session <> Some (PDict d)) ->
  _load_claimed_games claimed = PList l ->
  exists c,
    __init__ session claimed = Some c /\
    credential c = (PNone, PNone, PNone, 0) /\
    authorization c = None /\
    claimed_games c = l /\
    (claimed = None -> l = []) /\
    ensure_authenticated w c = (Val false, c).
Proof.
  intros Hno Hl.
  assert (Hload : _load_session session initial_attrs = initial_attrs).
  { destruct session as [[| | | | |d]|]; try reflexivity. now elim (Hno d). }
  unfold __init__. rewrite Hload, Hl. cbn.
  eexists. split; [reflexivity|]. cbn.
  do 3 (split; [reflexivity|]).
  split; [|reflexivity].
  intros ->. cbn in Hl. now inversion Hl.
Qed.

(** ** The callers *)

Lemma get_free_games_keeps_ledger (s : client) :
  claimed_games (snd (get_free_games w s)) = claimed_games s.
Proof.
  destruct (ensure_authenticated_effects w s) as (_ & Hc & _).
  destruct (get_free_games_effects s) as (_ & [H | H]); rewrite H;
    [exact Hc|].
  cbn [claimed_games log_request]. exact Hc.
Qed.

Lemma pick_nil {A : Type} (b : bool) (l : list A) : pick b [] l = [].
Proof. reflexivity. Qed.

(** The loop of the /claim command puts every offer in exactly one of its
    two lists, and the ledger gains the ids of those it reports claimed. *)
Lemma claim_each_accounts (games : list game) :
  forall (s : client) (claimed failed : list pyval),
  exists mask,
    length mask = length games /\
    fst (claim_each w games claimed failed s)
    = Val ((claimed ++ map game_title (pick true mask games))%list,
           (failed ++ map game_title (pick false mask games))%list) /\
    claimed_games (snd (claim_each w games claimed failed s))
    = (claimed_games s ++ map game_id (pick true mask games))%list.
Proof.
  induction games as [|g rest IH]; intros s claimed failed.
  - exists []. cbn. now rewrite !app_nil_r.
  - cbn [claim_each]. unfold bind.
    destruct (claim_game_effects s g) as [(Hv & Hl) | (Hv & Hl & _)];
      destruct (claim_game w g s) as [r s1]; cbn in Hv, Hl; subst r.
    + destruct (IH s1 (claimed ++ [game_title g])%list failed)
        as (mask & Hlen & Hres & Hledger).
      exists (true :: mask). cbn. rewrite Hlen, Hres, Hledger, Hl.
      now rewrite <- !app_assoc.
    + destruct (IH s1 claimed (failed ++ [game_title g])%list)
        as (mask & Hlen & Hres & Hledger).
      exists (false :: mask). cbn. rewrite Hlen, Hres, Hledger, Hl.
      now rewrite <- !app_assoc.
Qed.

(** X14. On a client whose [expires_at] is a number and whose ledger is a
    list (the type of [client]), the /claim command never ends in its error
    report.  It reports
    "not authenticated" or "no new games" with the ledger untouched, or else
    reports every offer the catalog query returned in exactly one of its two
    lists, in catalog order, and the ledger has gained exactly the ids of the
    offers reported as claimed. *)
Theorem claim_command_accounts_for_every_offer (s : client) :
  let r := _claim_free_games_thread w s in
  match fst r with
  | Val NotAuthenticated | Val NoNewGames =>
      claimed_games (snd r) = claimed_games s
  | Val (ClaimResults claimed failed) =>
      exists offers mask,
        fst (get_free_games w (snd (ensure_authenticated w s))) = Val offers /\
        length mask = length offers /\
        claimed = map game_title (pick true mask offers) /\
        failed = map game_title (pick false mask offers) /\
        claimed_games (snd r)
        = (claimed_games s ++ map game_id (pick true mask offers))%list
  | Val ClaimError | Exn => False
  end.
Proof.
  cbv zeta. unfold _claim_free_games_thread. run.
  destruct (ensure_authenticated_effects w s) as (Hv & Hc & _).
  destruct (ensure_authenticated w s) as [b s1]. cbn in Hv, Hc |- *.
  destruct Hv as [-> | ->]; cbn; [|exact Hc].
  destruct (get_free_games_effects s1) as ((offers & Ho) & Hs).
  assert (Hc1 : claimed_games (snd (get_free_games w s1)) = claimed_games s).
  { rewrite get_free_games_keeps_ledger. exact Hc. }
  destruct (get_free_games w s1) as [o s2]. cbn in Ho, Hc1. subst o.
  destruct offers as [|g rest]; [cbn; exact Hc1|].
  cbn beta iota.
  destruct (claim_each_accounts (g :: rest) s2 [] [])
    as (mask & Hlen & Hres & Hledger).
  destruct (claim_each w (g :: rest) [] [] s2) as [lists s3].
  cbn [fst snd app] in Hres, Hledger. subst lists. cbn [fst snd].
  exists (g :: rest), mask. rewrite Hledger, Hc1. auto.
Qed.

Lemma login_sends_no_store_request (s : client) (username password : string) :
  filter is_store_request (sent (snd (login w username password s)))
  = filter is_store_request (sent s).
Proof.
  assert (H : exists l,
             sent (snd (login w username password s)) = (l ++ sent s)%list /\
             existsb is_store_request l = false).
  { unfold login, session_post, session_get, response_json, time_time,
      _save_session, write_json.
    run. cbn.
    repeat step;
      first [ exists []; split; reflexivity
            | eexists [_]; split; reflexivity
            | eexists [_; _]; split; reflexivity
            | eexists [_; _; _]; split; reflexivity ]. }
  destruct H as (l & -> & Hl).
  rewrite filter_app.
  replace (filter is_store_request l) with (@nil request); [reflexivity|].
  clear - Hl. induction l as [|r l IH]; [reflexivity|].
  cbn in *. apply orb_false_iff in Hl as [Hr Hl].
  rewrite Hr. now apply IH.
Qed.

(** X15. When the client is not authenticated and [login] does not
    succeed (a second factor is required, or it failed), the scheduled cycle
    ends there: the client is as [login] left it, no request has gone to the
    catalog or the transaction endpoint, and the ledger is untouched. *)
Theorem cycle_stops_after_failed_login
  (n : channels) (username password : string) (s s1 : client) (method : pyval) :
  ensure_authenticated w s = (Val false, s1) ->
  fst (login w username password s1) = Val (false, method) ->
  let r := check_and_claim_free_games w n username password s in
  r = (Val tt, snd (login w username password s1)) /\
  filter is_store_request (sent (snd r)) = filter is_store_request (sent s) /\
  claimed_games (snd r) = claimed_games s.
Proof.
  intros Hauth Hlogin r. subst r.
  assert (Hrun : check_and_claim_free_games w n username password s
                 = (Val tt, snd (login w username password s1))).
  { unfold check_and_claim_free_games. run. rewrite Hauth. cbn.
    destruct (login w username password s1) as [res s2]. cbn in Hlogin |- *.
    subst res. reflexivity. }
  rewrite Hrun. split; [reflexivity|]. cbn [snd].
  destruct (ensure_authenticated_effects w s) as (_ & Hc & _ & Hs).
  rewrite Hauth in Hc, Hs. cbn in Hc, Hs.
  destruct (login_effects s1 username password) as (_ & Hl & _).
  split.
  - rewrite login_sends_no_store_request.
    destruct Hs as [-> | ->]; reflexivity.
  - congruence.
Qed.

Lemma notification_needs_description (n : channels) (g : game) :
  telegram_notifier n || discord_notifier n = true ->
  game_description g = PNone ->
  send_game_claimed_notification n g = Exn.
Proof.
  intros Hn Hd.
  unfold send_game_claimed_notification, telegram_claimed_notification,
    discord_claimed_notification, and_then.
  rewrite Hd. destruct (telegram_notifier n), (discord_notifier n);
    try reflexivity; discriminate.
Qed.

(** X16. With a notifier configured, a claimed offer without a description
    ends the scheduled cycle: the notification raises, the exception leaves
    [check_and_claim_free_games] right after that claim, and the offers that
    follow are not attempted in this cycle. *)
Theorem missing_description_ends_cycle
  (n : channels) (username password : string)
  (s s0 s1 s2 : client) (g : game) (rest : list game) :
  telegram_notifier n || discord_notifier n = true ->
  ensure_authenticated w s = (Val true, s0) ->
  get_free_games w s0 = (Val (g :: rest), s1) ->
  game_description g = PNone ->
  claim_game w g s1 = (Val true, s2) ->
  check_and_claim_free_games w n username password s = (Exn, s2).
Proof.
  intros Hn Hauth Hoffers Hd Hclaim.
  unfold check_and_claim_free_games. run. rewrite Hauth. cbn.
  rewrite Hoffers. cbn. unfold bind. rewrite Hclaim. unfold lift.
  now rewrite (notification_needs_description n g Hn Hd).
Qed.

Lemma claim_and_notify_quiet (n : channels) (games : list game) :
  Forall (fun g => send_game_claimed_notification n g = Val tt) games ->
  forall s : client,
    length (claim_outcomes w games s) = length games /\
    fst (claim_and_notify w n games s) = Val tt /\
    claimed_games (snd (claim_and_notify w n games s))
    = (claimed_games s
       ++ map game_id (pick true (claim_outcomes w games s) games))%list.
Proof.
  induction games as [|g rest IH]; intros Hall s.
  - cbn. now rewrite app_nil_r.
  - inversion Hall as [|? ? Hg Hrest]; subst.
    cbn [claim_and_notify claim_outcomes]. unfold bind.
    destruct (claim_game_effects s g) as [(Hv & Hl) | (Hv & Hl & _)];
      destruct (claim_game w g s) as [r s1]; cbn in Hv, Hl; subst r;
      cbn [fst snd].
    + unfold lift. rewrite Hg.
      destruct (IH Hrest s1) as (Hlen & Hres & Hledger).
      cbn. rewrite Hlen, Hres, Hledger, Hl.
      now rewrite <- !app_assoc.
    + unfold ret at 1.
      destruct (IH Hrest s1) as (Hlen & Hres & Hledger).
      cbn. rewrite Hlen, Hres, Hledger, Hl. auto.
Qed.

(** X17. Without a notifier, and on a client whose [expires_at] is a
    number (the type of [client]), the scheduled cycle never raises.  Either
    it stops after a login that did not succeed, in the state [login] left;
    or it runs the catalog query, in the state the authentication check or
    the successful login left, and claims the offers the query returned one
    after the other: the ledger has gained exactly the ids of the offers for
    which [claim_game] returned [True], in catalog order, none of which was
    in the ledger. *)
Theorem quiet_cycle_never_raises
  (n : channels) (username password : string) (s : client) :
  telegram_notifier n = false ->
  discord_notifier n = false ->
  let a := ensure_authenticated w s in
  let l := login w username password (snd a) in
  let r := check_and_claim_free_games w n username password s in
  fst r = Val tt /\
  ((fst a = Val false /\ (exists m, fst l = Val (false, m)) /\ snd r = snd l) \/
   (exists s' offers,
      ((fst a = Val true /\ s' = snd a) \/
       (fst a = Val false /\ (exists m, fst l = Val (true, m)) /\ s' = snd l)) /\
      fst (get_free_games w s') = Val offers /\
      Forall (fun g => py_in (game_id g) (claimed_games s) = false) offers /\
      claimed_games (snd r)
      = (claimed_games s
         ++ map game_id
              (pick true (claim_outcomes w offers (snd (get_free_games w s')))
                    offers))%list)).
Proof.
  intros Ht Hd a l r. subst a l r.
  assert (Hquiet : forall games,
            Forall (fun g => send_game_claimed_notification n g = Val tt) games).
  { intros games. apply Forall_forall. intros g _.
    unfold send_game_claimed_notification, and_then. now rewrite Ht, Hd. }
  assert (Hgo : forall s1, claimed_games s1 = claimed_games s ->
            let r := (free_games <- get_free_games w ;;
                      claim_and_notify w n free_games) s1 in
            fst r = Val tt /\
            exists offers,
              fst (get_free_games w s1) = Val offers /\
              Forall (fun g => py_in (game_id g) (claimed_games s) = false) offers /\
              claimed_games (snd r)
              = (claimed_games s
                 ++ map game_id
                      (pick true
                         (claim_outcomes w offers (snd (get_free_games w s1)))
                         offers))%list).
  { intros s1 Hs1. cbv zeta. unfold bind.
    destruct (get_free_games_unclaimed s1) as (offers & Ho & Hnew).
    pose proof (get_free_games_keeps_ledger s1) as Hc2.
    destruct (get_free_games w s1) as [o s2]. cbn [fst snd] in *. subst o.
    destruct (claim_and_notify_quiet n offers (Hquiet offers) s2)
      as (_ & Hres & Hledger).
    split; [exact Hres|].
    exists offers. split; [reflexivity|].
    split; [now rewrite <- Hs1|].
    rewrite Hledger, Hc2, Hs1. reflexivity. }
  destruct (ensure_authenticated_effects w s) as (Hv & Hc & _).
  destruct (ensure_authenticated w s) as [b s1] eqn:Hauth. cbn [fst snd] in *.
  destruct Hv as [-> | ->].
  - assert (Hrun : check_and_claim_free_games w n username password s
                   = (free_games <- get_free_games w ;;
                      claim_and_notify w n free_games) s1).
    { unfold check_and_claim_free_games. unfold bind at 1. rewrite Hauth.
      reflexivity. }
    rewrite Hrun. destruct (Hgo s1 Hc) as (Hres & offers & Ho & Hnew & Hl).
    split; [exact Hres|]. right.
    exists s1, offers. split; [left; auto|]. auto.
  - destruct (login_effects s1 username password) as ((b & m & Hl) & Hlc & _).
    destruct (login w username password s1) as [res s2] eqn:Hlogin.
    cbn [fst snd] in *. subst res.
    destruct b.
    + assert (Hrun : check_and_claim_free_games w n username password s
                     = (free_games <- get_free_games w ;;
                        claim_and_notify w n free_games) s2).
      { unfold check_and_claim_free_games. unfold bind at 1. rewrite Hauth.
        unfold bind at 1. cbn [negb]. unfold bind at 1. rewrite Hlogin.
        reflexivity. }
      rewrite Hrun.
      assert (Hc2 : claimed_games s2 = claimed_games s) by congruence.
      destruct (Hgo s2 Hc2) as (Hres & offers & Ho & Hnew & Hled).
      split; [exact Hres|]. right.
      exists s2, offers. split; [right; split; [reflexivity|]; split; eauto|].
      auto.
    + assert (Hrun : check_and_claim_free_games w n username password s
                     = (Val tt, s2)).
      { unfold check_and_claim_free_games. unfold bind at 1. rewrite Hauth.
        unfold bind at 1. cbn [negb]. unfold bind at 1. rewrite Hlogin.
        reflexivity. }
      rewrite Hrun. cbn [fst snd]. split; [reflexivity|].
      left. split; [reflexivity|]. split; eauto.
Qed.

(** ** The authorization code in the redirect URL *)

Lemma append_empty_r (x : string) : (x ++ "")%string = x.
Proof. induction x as [|c x IH]; cbn; [reflexivity | now rewrite IH]. Qed.

Lemma append_assoc (x y z : string) :
  ((x ++ y) ++ z)%string = (x ++ (y ++ z))%string.
Proof. induction x as [|c x IH]; cbn; [reflexivity | now rewrite IH]. Qed.

Lemma string_of_list_ascii_app (l1 l2 : list ascii) :
  string_of_list_ascii (l1 ++ l2)
  = (string_of_list_ascii l1 ++ string_of_list_ascii l2)%string.
Proof. induction l1 as [|c l1 IH]; cbn; [reflexivity | now rewrite IH]. Qed.

(** The piece begun with the characters [cur] (held reversed) and
    continued with [x]. *)
Lemma piece_step (c : ascii) (cur : list ascii) (x : string) :
  (rev_string (c :: cur) ++ x)%string = (rev_string cur ++ String c x)%string.
Proof.
  unfold rev_string. cbn [rev].
  now rewrite string_of_list_ascii_app, append_assoc.
Qed.

Lemma split_from_head (sep : string) (s : string) :
  forall skip cur,
  exists x more, split_from sep skip cur s = (rev_string cur ++ x)%string :: more.
Proof.
  induction s as [|c s IH]; intros skip cur.
  - exists ""%string, []. cbn. now rewrite append_empty_r.
  - cbn [split_from]. destruct skip as [|k]; [|apply IH].
    destruct (starts_with sep (String c s)).
    + exists ""%string. eexists. now rewrite append_empty_r.
    + destruct (IH O (c :: cur)) as (x & more & H).
      exists (String c x), more. now rewrite H, piece_step.
Qed.

Lemma code_window (c : ascii) (pre s : string) :
  starts_with "code=" (String c (pre ++ "code"))
  = starts_with "code=" (String c (pre ++ "code=" ++ s)).
Proof. destruct pre as [|a1 [|a2 [|a3 [|a4 p]]]]; reflexivity. Qed.

Lemma split_code_first (pre s : string) :
  occurs "code=" (pre ++ "code") = false ->
  forall cur,
    split_from "code=" O cur (pre ++ "code=" ++ s)
    = (rev_string cur ++ pre)%string :: split_from "code=" O [] s.
Proof.
  induction pre as [|c pre IH]; intros Hno cur.
  - cbn. now rewrite append_empty_r.
  - change ((String c pre ++ "code")%string) with (String c (pre ++ "code")) in Hno.
    cbn [occurs] in Hno. apply orb_false_iff in Hno as [Hhere Hlater].
    rewrite (code_window c pre s) in Hhere.
    change ((String c pre ++ "code=" ++ s)%string)
      with (String c (pre ++ "code=" ++ s)).
    cbn [split_from]. rewrite Hhere, (IH Hlater). now rewrite piece_step.
Qed.

Lemma code_not_across (x tail : string) :
  starts_with "code=" x = false ->
  ends_or_ampersand tail ->
  starts_with "code=" (x ++ tail) = false.
Proof.
  intros Hx [-> | (rest & ->)]; [now rewrite append_empty_r|].
  destruct x as [|a1 [|a2 [|a3 [|a4 [|a5 p]]]]]; cbn in Hx |- *;
    try exact Hx;
    repeat match goal with
           | |- context [Ascii.eqb ?a ?b] => destruct (Ascii.eqb a b)
           end; reflexivity.
Qed.

Lemma split_code_second (c tail : string) :
  occurs "code=" c = false ->
  ends_or_ampersand tail ->
  forall cur,
  exists t1 more,
    split_from "code=" O cur (c ++ tail)
    = (rev_string cur ++ c ++ t1)%string :: more /\
    ends_or_ampersand t1.
Proof.
  intros Hno Htail. induction c as [|a c IH]; intros cur.
  - destruct Htail as [-> | (rest & ->)].
    + exists ""%string, []. split; [cbn; now rewrite append_empty_r | now left].
    + cbn [append split_from]. change (starts_with "code=" (String "&" rest)) with false.
      cbv iota.
      destruct (split_from_head "code=" rest O ("&"%char :: cur))
        as (x & more & H).
      exists (String "&" x), more. rewrite H, piece_step.
      split; [reflexivity | right; now exists x].
  - cbn [occurs] in Hno. apply orb_false_iff in Hno as [Hhere Hlater].
    pose proof (code_not_across (String a c) tail Hhere Htail) as Hhere'.
    change ((String a c ++ tail)%string) with (String a (c ++ tail)) in *.
    cbn [split_from]. rewrite Hhere'.
    destruct (IH Hlater (a :: cur)) as (t1 & more & H & Ht1).
    exists t1, more. rewrite H, piece_step. split; [reflexivity | exact Ht1].
Qed.

Lemma split_ampersand_first (c t1 : string) :
  occurs "&" c = false ->
  ends_or_ampersand t1 ->
  forall cur,
  exists more,
    split_from "&" O cur (c ++ t1) = (rev_string cur ++ c)%string :: more.
Proof.
  intros Hno Ht1. induction c as [|a c IH]; intros cur.
  - destruct Ht1 as [-> | (rest & ->)]; cbn; rewrite append_empty_r;
      eexists; reflexivity.
  - cbn [occurs] in Hno. apply orb_false_iff in Hno as [Hhere Hlater].
    change ((String a c ++ t1)%string) with (String a (c ++ t1)).
    cbn [split_from].
    assert (Ha : starts_with "&" (String a (c ++ t1)) = false).
    { cbn [starts_with] in Hhere |- *.
      destruct (Ascii.eqb "&" a); [discriminate Hhere|reflexivity]. }
    rewrite Ha.
    destruct (IH Hlater (a :: cur)) as (more & H).
    exists more. now rewrite H, piece_step.
Qed.

(** X18. The code taken from a redirect URL of the form
    [pre code=c tail], where [code=] first occurs at the end of [pre], [c]
    contains neither [&] nor [code=], and [tail] is empty or starts with
    [&], is [c]. *)
Theorem authorization_code_of_redirect
  (d : list (string * pyval)) (pre c tail : string) :
  field (PDict d) "redirectUrl" (PStr "")
  = PStr (pre ++ "code=" ++ c ++ tail) ->
  occurs "code=" (pre ++ "code") = false ->
  occurs "code=" c = false ->
  occurs "&" c = false ->
  tail = ""%string \/ (exists rest, tail = String "&" rest) ->
  authorization_code (PDict d) = Val c.
Proof.
  intros Hurl Hpre Hc Hamp Htail.
  assert (Hget : py_get (PDict d) "redirectUrl" (PStr "")
                 = Val (PStr (pre ++ "code=" ++ c ++ tail))).
  { unfold field in Hurl. cbn in Hurl |- *.
    destruct (dict_get "redirectUrl" d); now rewrite Hurl. }
  unfold authorization_code, and_then. rewrite Hget.
  unfold py_str_split, py_split.
  rewrite (split_code_first pre (c ++ tail) Hpre []).
  destruct (split_code_second c tail Hc Htail []) as (t1 & more & H1 & Ht1).
  rewrite H1. cbn [py_index nth_error].
  unfold rev_string at 1. cbn [rev string_of_list_ascii append].
  destruct (split_ampersand_first c t1 Hamp Ht1 []) as (more' & H2).
  rewrite H2. reflexivity.
Qed.

(** X19. Without authentication nothing is claimed: when
    [ensure_authenticated] answers [False], [claim_game] returns [False] in
    the state the check left, no request has gone to the catalog or the
    transaction endpoint, and the ledger is untouched. *)
Theorem claim_game_needs_authentication (s s1 : client) (g : game) :
  ensure_authenticated w s = (Val false, s1) ->
  claim_game w g s = (Val false, s1) /\
  filter is_store_request (sent s1) = filter is_store_request (sent s) /\
  claimed_games s1 = claimed_games s /\
  claimed_games_file s1 = claimed_games_file s.
Proof.
  intros Hauth.
  destruct (ensure_authenticated_effects w s) as (_ & Hc & Hf & Hs).
  rewrite Hauth in Hc, Hf, Hs. cbn in Hc, Hf, Hs.
  split; [now apply claim_game_unauthenticated|].
  split; [destruct Hs as [-> | ->]; reflexivity | auto].
Qed.

End MoreProperties.

(** * The further properties on the scenarios *)

Lemma get_free_games_on_any_answer_witness :
  let w := world_of (store [priced "c" 0; unreadable "x"]) Written in
  let s := logged_in 30000 [] in
  fst (get_free_games w s) = Val [] /\
  sent (snd (get_free_games w s)) = [catalog_request (tick s)].
Proof.
  intros w s.
  apply (get_free_games_on_any_answer w s (tick s)). reflexivity.
Defined.

Lemma claimed_offer_is_not_offered_again_witness :
  let w := world_of (store abc_catalog) Written in
  let s1 := snd (claim_game w game_c (logged_in 30000 [])) in
  exists l,
    fst (get_free_games w s1) = Val l /\
    Forall (fun g' => game_id g' <> PStr "c") l.
Proof.
  intros w s1.
  apply (claimed_offer_is_not_offered_again
           w (logged_in 30000 []) s1 game_c "c");
    reflexivity.
Defined.


Lemma login_without_code_fails_witness :
  let w := world_of (provider 200 redirect_without_code (PDict numeric_tokens))
                    Written in
  let s1 := log_request (login_request "user@example.com" "secret" first_run)
                        first_run in
  login w "user@example.com" "secret" first_run
  = (Val (false, PNone), log_request (redirect_request s1) s1) /\
  login_result (false, PNone) = Failed.
Proof.
  intros w s1.
  apply (login_without_code_fails
           w first_run "user@example.com" "secret" []
           [("redirectUrl", PStr redirect_without_code)] redirect_without_code);
    reflexivity.
Defined.

Lemma complete_2fa_rejected_witness :
  let w := world_of (provider 400 redirect_with_code (PDict numeric_tokens))
                    Written in
  complete_2fa w "123456" first_run
  = (Val false, log_request (mfa_request "123456" first_run) first_run).
Proof.
  intros w.
  apply (complete_2fa_rejected w first_run "123456").
  intros body H. vm_compute in H. discriminate H.
Defined.



Lemma stale_token_without_refresh_token_witness :
  let w := world_of (provider 200 redirect_with_code (PDict numeric_tokens))
                    Written in
  let s := set_refresh_token PNone (logged_in 1000 []) in
  ensure_authenticated w s = (Val false, tick s) /\
  sent (tick s) = sent s /\
  credential (tick s) = credential s.
Proof.
  intros w s.
  apply (stale_token_without_refresh_token w s);
    [reflexivity | cbn; lia | reflexivity].
Defined.

Lemma restart_restores_client_witness :
  let w := world_of (store abc_catalog) Written in
  let s := logged_in 30000 [PStr "a"] in
  let s' := snd (_save_claimed_games w (snd (_save_session w s))) in
  exists c,
    __init__ (session_file s') (claimed_games_file s') = Some c /\
    credential c = credential s /\
    claimed_games c = claimed_games s /\
    authorization c
    = (if truthy (access_token s) then Some (access_token s) else None) /\
    sent c = [].
Proof.
  intros w s.
  apply (restart_restores_client w s); reflexivity.
Defined.

Lemma unusable_session_file_means_signed_out_witness :
  let w := world_of (store abc_catalog) Written in
  exists c,
    __init__ (Some (PList [PStr "not"; PStr "an"; PStr "object"]))
             (Some (PList [PStr "a"]))
    = Some c /\
    credential c = (PNone, PNone, PNone, 0) /\
    authorization c = None /\
    claimed_games c = [PStr "a"] /\
    (Some (PList [PStr "a"]) = None -> [PStr "a"] = []) /\
    ensure_authenticated w c = (Val false, c).
Proof.
  intros w.
  apply (unusable_session_file_means_signed_out w);
    [intros d H; discriminate H | reflexivity].
Defined.

Lemma cycle_stops_after_failed_login_witness :
  let w := world_of (identity two_factor_answer string_expiry_tokens) Written in
  let r := check_and_claim_free_games w both_channels "user@example.com"
                                      "secret" first_run in
  r = (Val tt, snd (login w "user@example.com" "secret" first_run)) /\
  filter is_store_request (sent (snd r))
  = filter is_store_request (sent first_run) /\
  claimed_games (snd r) = claimed_games first_run.
Proof.
  intros w.
  apply (cycle_stops_after_failed_login
           w both_channels "user@example.com" "secret" first_run first_run
           (PStr "email"));
    reflexivity.
Defined.

Lemma missing_description_ends_cycle_witness :
  let w := world_of (store abc_catalog) Written in
  let s := logged_in 30000 [] in
  let r := check_and_claim_free_games w both_channels "user@example.com"
                                      "secret" s in
  fst r = Exn /\ claimed_games (snd r) = [PStr "a"].
Proof.
  intros w s r.
  pose proof (missing_description_ends_cycle
                w both_channels "user@example.com" "secret"
                s (tick s) (snd (get_free_games w (tick s)))
                (snd (claim_game w (entry_offer (priced "a" 0))
                                 (snd (get_free_games w (tick s)))))
                (entry_offer (priced "a" 0)) [entry_offer (priced "c" 0)]
                eq_refl eq_refl eq_refl eq_refl eq_refl) as H.
  subst r. rewrite H. split; reflexivity.
Defined.

Lemma quiet_cycle_never_raises_witness :
  let w := world_of (store abc_catalog) Written in
  let s := logged_in 30000 [] in
  let r := check_and_claim_free_games w no_channel "user@example.com"
                                      "secret" s in
  fst r = Val tt /\
  claimed_games (snd r) = [PStr "a"; PStr "c"].
Proof.
  intros w s r.
  destruct (quiet_cycle_never_raises
              w no_channel "user@example.com" "secret" s eq_refl eq_refl)
    as (Hv & _).
  split; [exact Hv | reflexivity].
Defined.

Lemma authorization_code_of_redirect_witness :
  authorization_code (PDict [("redirectUrl", PStr redirect_with_code)])
  = Val "abc123"%string.
Proof.
  apply (authorization_code_of_redirect
           [("redirectUrl", PStr redirect_with_code)]
           "https://www.epicgames.com/id/login?" "abc123" "&state=x");
    try reflexivity.
  right. exists "state=x"%string. reflexivity.
Defined.

Lemma claim_game_needs_authentication_witness :
  let w := world_of (store abc_catalog) Written in
  let s := logged_in 1000 [] in
  let s1 := log_request (refresh_request s) (tick s) in
  claim_game w game_c s = (Val false, s1) /\
  filter is_store_request (sent s1) = filter is_store_request (sent s) /\
  claimed_games s1 = claimed_games s /\
  claimed_games_file s1 = claimed_games_file s.
Proof.
  intros w s s1.
  apply (claim_game_needs_authentication w s s1 game_c).
  reflexivity.
Defined.

Lemma get_free_games_on_catalog_response_witness :
  let w := world_of (store abc_catalog) Written in
  let s := logged_in 30000 [PStr "a"] in
  fst (get_free_games w s) = Val [entry_offer (priced "c" 0)] /\
  claimed_games (snd (get_free_games w s)) = [PStr "a"] /\
  claimed_games_file (snd (get_free_games w s)) = Some (PList [PStr "a"]) /\
  Forall (fun g => py_in (game_id g) [PStr "a"] = false)
         [entry_offer (priced "c" 0)].
Proof.
  intros w s.
  apply (get_free_games_on_catalog_response
           w s (tick s) (catalog abc_catalog) abc_catalog);
    reflexivity.
Defined.

(** C3, as stated, fails: in a catalog response with the free, unclaimed
    entry ["c"] and an entry whose [price] is [null], the lookup of the price
    raises on the second entry and [get_free_games] returns the empty list. *)
Lemma unreadable_entry_empties_the_offers :
  let w := world_of (store [priced "c" 0; unreadable "x"]) Written in
  let s := logged_in 30000 [PStr "a"] in
  is_free (priced "c" 0) = true /\
  py_in (entry_id (priced "c" 0)) (claimed_games s) = false /\
  fst (get_free_games w s) = Val [] /\
  fst (get_free_games w s)
  <> Val (free_offers (claimed_games s) [priced "c" 0; unreadable "x"]).
Proof.
  cbv zeta. repeat split; try reflexivity.
  intros H. vm_compute in H. discriminate H.
Qed.

Lemma entry_without_price_is_free_witness :
  let w := world_of (store [priced "b" 500; unpriced "d"]) Written in
  let s := logged_in 30000 [PStr "a"] in
  let items := [priced "b" 500; unpriced "d"] in
  discount_price (unpriced "d") = Val (PInt 0) /\
  is_free (unpriced "d") = true /\
  readable_entry (unpriced "d") = true /\
  (forallb readable_entry items = true ->
   exists offers,
     fst (get_free_games w s) = Val offers /\
     In (entry_offer (unpriced "d")) offers) /\
  (forallb readable_entry items = false ->
   fst (get_free_games w s) = Val []).
Proof.
  intros w s items.
  apply (entry_without_price_is_free
           w s (tick s) (catalog items) items (unpriced "d"));
    try reflexivity.
  cbn. auto.
Defined.

(** C10, as stated, fails: an entry without price whose id is not in the
    ledger is not returned when the response also holds an entry whose
    [price] is [null]; [get_free_games] returns the empty list. *)
Lemma entry_without_price_lost_to_unreadable_sibling :
  let w := world_of (store [unpriced "d"; unreadable "x"]) Written in
  let s := logged_in 30000 [PStr "a"] in
  lacks_price (unpriced "d") = true /\
  py_in (entry_id (unpriced "d")) (claimed_games s) = false /\
  fst (get_free_games w s) = Val [] /\
  ~ (exists offers,
       fst (get_free_games w s) = Val offers /\
       In (entry_offer (unpriced "d")) offers).
Proof.
  cbv zeta. repeat split; try reflexivity.
  intros (offers & H & Hin). vm_compute in H. injection H as <-.
  destruct Hin.
Qed.
